(** * System_agent: a host-inventory probe (cmd/System_agent/main.go)

    Shallow embedding of the Go program and proofs of the properties its
    specification states.  Go strings are byte sequences and are modelled
    by [string] (a list of 8-bit [ascii]); Go maps by stdpp's [gmap];
    slices by [list] (the nil slice is the empty list).  The operating
    system (file reads, stat, the package-query command, the standard
    streams) is an explicit world threaded through a small state monad. *)

From Stdlib Require Import ZArith Ascii Lia.
From Stdlib Require String.
From stdpp Require Import base option list gmap strings sorting.

(** ** Bytes used by the program's string constants *)

Definition TAB : string := String "009"%char "".
Definition NL : string := String "010"%char "".
Definition QUOTE : string := String "034"%char "".

(** ** The Go [strings] package, as far as the program uses it *)

Module strings.

(** [len(s)] *)
Definition len (s : string) : nat := String.length s.

(** [s[:n]] and [s[n:]] *)
Fixpoint slice_to (s : string) (n : nat) : string :=
  match n, s with
  | S n', String c s' => String c (slice_to s' n')
  | _, _ => ""
  end.

Fixpoint slice_from (s : string) (n : nat) : string :=
  match n, s with
  | S n', String _ s' => slice_from s' n'
  | _, _ => s
  end.

(** [strings.HasPrefix(s, prefix)] *)
Fixpoint HasPrefix (s prefix : string) {struct prefix} : bool :=
  match prefix, s with
  | "", _ => true
  | String p prefix', String c s' =>
      if decide (p = c) then HasPrefix s' prefix' else false
  | String _ _, "" => false
  end.

(** [strings.Index(s, substr)]: the byte index of the first instance of
    [substr] in [s], or -1. *)
Fixpoint Index (s substr : string) : Z :=
  if HasPrefix s substr then 0%Z
  else match s with
       | "" => (-1)%Z
       | String _ s' =>
           let i := Index s' substr in
           if (i <? 0)%Z then (-1)%Z else (i + 1)%Z
       end.

(** [strings.Contains(s, substr)] is [Index(s, substr) >= 0]. *)
Definition Contains (s substr : string) : bool := (0 <=? Index s substr)%Z.

(** [strings.Count(s, substr)] for a non-empty [substr]: the loop
    [for { i := Index(s, substr); if i == -1 { return n }; n++;
    s = s[i+len(substr):] }].  Every round drops at least one byte, so
    [len(s)] rounds are enough. *)
Fixpoint Count_loop (fuel : nat) (s substr : string) : nat :=
  match fuel with
  | 0 => 0
  | S fuel' =>
      let i := Index s substr in
      if (i <? 0)%Z then 0
      else S (Count_loop fuel' (slice_from s (Z.to_nat i + len substr)) substr)
  end.

Definition Count (s substr : string) : nat := Count_loop (len s) s substr.

(** The loop of [genSplit] (with [sepSave = 0]): at most [n] cuts, each at
    the first instance of [sep]; the rest of the string is the last
    field. *)
Fixpoint genSplit_loop (n : nat) (s sep : string) : list string :=
  match n with
  | 0 => [s]
  | S n' =>
      let m := Index s sep in
      if (m <? 0)%Z then [s]
      else slice_to s (Z.to_nat m)
             :: genSplit_loop n' (slice_from s (Z.to_nat m + len sep)) sep
  end.

(** [genSplit(s, sep, 0, n)] for a non-empty [sep] (every call of the
    program passes a one-byte constant): [n == 0] gives nil, a negative
    [n] stands for [Count(s, sep) + 1], [n] is capped by [len(s) + 1],
    and the loop makes [n - 1] cuts. *)
Definition genSplit (s sep : string) (n : Z) : list string :=
  if (n =? 0)%Z then []
  else
    let n1 := if (n <? 0)%Z then S (Count s sep) else Z.to_nat n in
    let n2 := if decide (S (len s) < n1) then S (len s) else n1 in
    genSplit_loop (pred n2) s sep.

(** [strings.Split(s, sep)] and [strings.SplitN(s, sep, n)] *)
Definition Split (s sep : string) : list string := genSplit s sep (-1).
Definition SplitN (s sep : string) (n : Z) : list string := genSplit s sep n.

(** [strings.Join(elems, sep)] *)
Fixpoint Join (elems : list string) (sep : string) : string :=
  match elems with
  | [] => ""
  | [e] => e
  | e :: rest => e +:+ sep +:+ Join rest sep
  end.

(** Membership of a byte in a cutset. *)
Fixpoint IndexByte_in (c : ascii) (cutset : string) : bool :=
  match cutset with
  | "" => false
  | String d cutset' => if decide (c = d) then true else IndexByte_in c cutset'
  end.

(** [strings.TrimLeft] / [strings.TrimRight] / [strings.Trim] for an ASCII
    cutset: all leading and trailing bytes contained in the cutset are
    removed. *)
Fixpoint TrimLeft (s cutset : string) : string :=
  match s with
  | "" => ""
  | String c s' => if IndexByte_in c cutset then TrimLeft s' cutset else s
  end.

Fixpoint TrimRight (s cutset : string) : string :=
  match s with
  | "" => ""
  | String c s' =>
      match TrimRight s' cutset with
      | "" => if IndexByte_in c cutset then "" else String c ""
      | r => String c r
      end
  end.

Definition Trim (s cutset : string) : string :=
  TrimLeft (TrimRight s cutset) cutset.

(** ASCII bytes and ASCII upper-case letters. *)
Definition isASCIIByte (c : ascii) : bool := (N_of_ascii c <? 128)%N.

Definition isUpperByte (c : ascii) : bool :=
  ((65 <=? N_of_ascii c) && (N_of_ascii c <=? 90))%N.

(** [c += 'a' - 'A'] for ['A' <= c && c <= 'Z'] *)
Definition lowerByte (c : ascii) : ascii :=
  if isUpperByte c then ascii_of_N (N_of_ascii c + 32) else c.

Fixpoint isASCII (s : string) : bool :=
  match s with
  | "" => true
  | String c s' => isASCIIByte c && isASCII s'
  end.

Fixpoint mapBytes (f : ascii → ascii) (s : string) : string :=
  match s with
  | "" => ""
  | String c s' => String (f c) (mapBytes f s')
  end.

(** [strings.ToLower(s)]: an ASCII-only string is lowered byte by byte;
    any other string goes through [strings.Map(unicode.ToLower, s)],
    which depends on the Unicode tables and is a parameter here. *)
Definition ToLower (mapUnicodeLower : string → string) (s : string) : string :=
  if isASCII s then mapBytes lowerByte s else mapUnicodeLower s.

End strings.

(** ** The Go [path/filepath] package on Unix, as far as the program uses it *)

Module filepath.

(** The elements of a path that [Clean] keeps, in order: empty elements
    and [.] are dropped, an inner [..] removes the element before it, a
    [..] at the start of a rooted path is dropped and one at the start of
    a relative path is kept.  [out] is the output so far, last element
    first. *)
Fixpoint clean_elems (rooted : bool) (elems out : list string) : list string :=
  match elems with
  | [] => rev out
  | e :: elems' =>
      if decide (e = "" ∨ e = ".") then clean_elems rooted elems' out
      else if decide (e = "..") then
        match out with
        | top :: out' =>
            if decide (top = "..") then clean_elems rooted elems' (e :: out)
            else clean_elems rooted elems' out'
        | [] =>
            if rooted then clean_elems rooted elems' []
            else clean_elems rooted elems' [e]
        end
      else clean_elems rooted elems' (e :: out)
  end.

(** [filepath.Clean(path)] *)
Definition Clean (path : string) : string :=
  if decide (path = "") then "."
  else
    let rooted := strings.HasPrefix path "/" in
    let body := strings.Join (clean_elems rooted (strings.Split path "/") []) "/" in
    if rooted then "/" +:+ body
    else if decide (body = "") then "." else body.

(** [filepath.Join(elem...)]: leading empty elements are ignored, the rest
    is joined with the separator and cleaned; all empty gives [""]. *)
Fixpoint Join (elem : list string) : string :=
  match elem with
  | [] => ""
  | e :: rest =>
      if decide (e = "") then Join rest
      else Clean (strings.Join elem "/")
  end.

End filepath.

(** ** Data model (main.go, lines 13-31) *)

Record Package := {
  Name : string;
  Version : string;
  ConfigFiles : list string;
  RequiredPackages : list string
}.

Record ConfigFile := {
  Path : string;
  Content : string;
  Modified : string
}.

Record SystemInfo := {
  OSRelease : gmap string string;
  Packages : list Package;
  Configurations : gmap string ConfigFile
}.

Record OSDetector := { osRelease : gmap string string }.

Record PackageManager := { pkgType : string }.

Record ConfigurationReader := { rootDir : string }.

Record Agent := {
  osDetector : OSDetector;
  pkgManager : PackageManager;
  configReader : ConfigurationReader;
  systemInfo : SystemInfo
}.

(** ** The world: files, the package-query command, the standard streams *)

(** A Go [error] is represented by its message. *)
Definition error := string.

(** A constructor that returns [(ptr, nil)] or [(nil, err)]. *)
Inductive result (A : Type) :=
  | Ok (a : A)
  | Error (e : error).
Arguments Ok {A} a.
Arguments Error {A} e.

Inductive Fd := Stdout | Stderr.

Global Instance Fd_eq_dec : EqDecision Fd.
Proof. solve_decision. Defined.

Inductive Event :=
  | EvReadFile (path : string)
  | EvStat (path : string)
  | EvExec (name : string) (args : list string)
  | EvWrite (fd : Fd) (data : string).

(** What the operating system answers.  Every answer may depend on the
    moment of the call (the number of events of the run so far), so a file
    may change while the program runs.  A library call returns its data and
    its error side by side, as in Go; [Stat_at] gives the text of
    [fileInfo.ModTime().String()]. *)
Record World := {
  ReadFile_at : nat → string → string * option error;
  Stat_at : nat → string → string * option error;
  Output_at : nat → string → list string → string * option error
}.

(** The state of a run is the trace of its events, oldest first. *)
Definition M (A : Type) : Type := list Event → A * list Event.

Definition ret {A} (a : A) : M A := λ tr, (a, tr).

Definition bind {A B} (c : M A) (k : A → M B) : M B :=
  λ tr, let '(a, tr') := c tr in k a tr'.

Notation "'let*' x ':=' c 'in' k" := (bind c (λ x, k))
  (at level 10, x binder, c at level 100, k at level 200).
Notation "c ;;; k" := (bind c (λ _, k))
  (at level 100, k at level 200, right associativity).

(** [for _, x := range xs { acc = body(x, acc) }] *)
Fixpoint for_range {A S} (xs : list A) (body : A → S → M S) (acc : S) : M S :=
  match xs with
  | [] => ret acc
  | x :: xs' => let* acc' := body x acc in for_range xs' body acc'
  end.

(** The bytes written to one stream, in order. *)
Fixpoint written (fd : Fd) (tr : list Event) : string :=
  match tr with
  | [] => ""
  | EvWrite fd' data :: tr' =>
      if decide (fd' = fd) then data +:+ written fd tr' else written fd tr'
  | _ :: tr' => written fd tr'
  end.


(** ** The program (main.go, lines 33-212) *)

Section Program.

(** The operating system of the run. *)
Variable W : World.

(** [strings.Map(unicode.ToLower, s)], used by [strings.ToLower] on
    strings that are not ASCII-only. *)
Variable mapUnicodeLower : string → string.

(** [json.MarshalIndent(v, "", "  ")] on a [*SystemInfo]: a pure mapping
    from the in-memory model to bytes (object keys of a map are emitted
    sorted, so the result depends on the map only). *)
Variable MarshalIndent : SystemInfo → string * option error.

(** [ioutil.ReadFile(path)] *)
Definition ioutil_ReadFile (path : string) : M (string * option error) :=
  λ tr, (ReadFile_at W (length tr) path, tr ++ [EvReadFile path]).

(** [os.Stat(path)] followed by [.ModTime().String()] *)
Definition os_Stat (path : string) : M (string * option error) :=
  λ tr, (Stat_at W (length tr) path, tr ++ [EvStat path]).

(** [exec.Command(name, args...).Output()] *)
Definition exec_Output (name : string) (args : list string)
  : M (string * option error) :=
  λ tr, (Output_at W (length tr) name args, tr ++ [EvExec name args]).

(** [fmt.Printf] and [fmt.Println] write to standard output. *)
Definition fmt_Printf (text : string) : M unit :=
  λ tr, (tt, tr ++ [EvWrite Stdout text]).

Definition fmt_Println (text : string) : M unit :=
  fmt_Printf (text +:+ NL).

(** The body of the loop of [NewOSDetector] (lines 47-52). *)
Definition descriptor_step (osRelease : gmap string string) (line : string)
  : gmap string string :=
  let parts := strings.SplitN line "=" 2 in
  if decide (length parts = 2) then
    let key := strings.Trim (parts !!! 0) QUOTE in
    let value := strings.Trim (parts !!! 1) QUOTE in
    <[key := value]> osRelease
  else osRelease.

(** The loop of [NewOSDetector] (lines 44-53). *)
Definition osRelease_of_content (content : string) : gmap string string :=
  let lines := strings.Split content NL in
  foldl descriptor_step ∅ lines.

Definition NewOSDetector : M (result OSDetector) :=
  let* '(content, err) := ioutil_ReadFile "/etc/os-release" in
  match err with
  | Some e => ret (Error ("failed to read os-release: " +:+ e))
  | None => ret (Ok {| osRelease := osRelease_of_content content |})
  end.

Definition NewPackageManager (osID : string) : PackageManager :=
  let pkgType := "apt" in
  let pkgType :=
    if strings.Contains (strings.ToLower mapUnicodeLower osID) "rhel"
       || strings.Contains (strings.ToLower mapUnicodeLower osID) "centos"
       || strings.Contains (strings.ToLower mapUnicodeLower osID) "fedora"
    then "rpm" else pkgType in
  {| pkgType := pkgType |}.

(** The command of [GetInstalledPackages] (lines 74-81). *)
Definition query_command (pm : PackageManager) : string * list string :=
  if decide (pkgType pm = "rpm") then
    ("rpm", ["-qa"; "--queryformat";
             "%{NAME}" +:+ TAB +:+ "%{VERSION}" +:+ TAB +:+ "%{CONFIGFILES}" +:+ NL])
  else
    ("dpkg-query", ["-W"; "-f";
             "${Package}" +:+ TAB +:+ "${Version}" +:+ TAB +:+ "${Conffiles}" +:+ NL]).

(** The body of the parsing loop of [GetInstalledPackages]
    (lines 91-104). *)
Definition package_step (packages : list Package) (line : string)
  : list Package :=
  if decide (line = "") then packages
  else
    let parts := strings.Split line TAB in
    if decide (2 ≤ length parts) then
      let pkg := {| Name := parts !!! 0;
                    Version := parts !!! 1;
                    ConfigFiles :=
                      if decide (2 < length parts)
                      then strings.Split (parts !!! 2) " "
                      else [];
                    RequiredPackages := [] |} in
      packages ++ [pkg]
    else packages.

(** The parsing loop of [GetInstalledPackages] (lines 88-105). *)
Definition packages_of_output (output : string) : list Package :=
  let lines := strings.Split output NL in
  foldl package_step [] lines.

Definition GetInstalledPackages (pm : PackageManager)
  : M (list Package * option error) :=
  let cmd := query_command pm in
  let* '(output, err) := exec_Output cmd.1 cmd.2 in
  match err with
  | Some e => ret ([], Some ("failed to query packages: " +:+ e))
  | None => ret (packages_of_output output, None)
  end.

Definition NewConfigurationReader (rootDir : string) : ConfigurationReader :=
  {| rootDir := rootDir |}.

Definition ReadConfigFile (cr : ConfigurationReader) (path : string)
  : M (result ConfigFile) :=
  let fullPath := filepath.Join [rootDir cr; path] in
  let* '(content, err) := ioutil_ReadFile fullPath in
  match err with
  | Some e =>
      ret (Error ("failed to read config file " +:+ path +:+ ": " +:+ e))
  | None =>
      let* '(modTime, err) := os_Stat fullPath in
      match err with
      | Some e =>
          ret (Error ("failed to get file info for " +:+ path +:+ ": " +:+ e))
      | None =>
          ret (Ok {| Path := path; Content := content; Modified := modTime |})
      end
  end.

(** [osDetector.osRelease["ID"]]: a missing key reads as the empty string. *)
Definition NewAgent : M (result Agent) :=
  let* r := NewOSDetector in
  match r with
  | Error err => ret (Error err)
  | Ok osDetector =>
      let pkgManager :=
        NewPackageManager (default "" (osRelease osDetector !! "ID")) in
      let configReader := NewConfigurationReader "/" in
      ret (Ok {| osDetector := osDetector;
                 pkgManager := pkgManager;
                 configReader := configReader;
                 systemInfo := {| OSRelease := ∅; Packages := [];
                                  Configurations := ∅ |} |})
  end.

(** The warning of line 180. *)
Definition warning (configPath : string) (err : error) : string :=
  "Warning: couldn't read config " +:+ configPath +:+ ": " +:+ err +:+ NL.

(** The body of the inner loop (lines 178-183). *)
Definition collect_path (cr : ConfigurationReader) (configPath : string)
    (configs : gmap string ConfigFile) : M (gmap string ConfigFile) :=
  let* r := ReadConfigFile cr configPath in
  match r with
  | Error err => fmt_Printf (warning configPath err) ;;; ret configs
  | Ok config => ret (<[configPath := config]> configs)
  end.

(** The two nested loops (lines 176-185). *)
Definition collect_configs (cr : ConfigurationReader) (packages : list Package)
    (configs : gmap string ConfigFile) : M (gmap string ConfigFile) :=
  for_range packages
    (λ pkg configs, for_range (ConfigFiles pkg) (collect_path cr) configs)
    configs.

Definition set_OSRelease (si : SystemInfo) (v : gmap string string) :=
  {| OSRelease := v; Packages := Packages si;
     Configurations := Configurations si |}.
Definition set_Packages (si : SystemInfo) (v : list Package) :=
  {| OSRelease := OSRelease si; Packages := v;
     Configurations := Configurations si |}.
Definition set_Configurations (si : SystemInfo) (v : gmap string ConfigFile) :=
  {| OSRelease := OSRelease si; Packages := Packages si;
     Configurations := v |}.
Definition set_systemInfo (a : Agent) (si : SystemInfo) : Agent :=
  {| osDetector := osDetector a; pkgManager := pkgManager a;
     configReader := configReader a; systemInfo := si |}.

(** [GatherSystemInfo] writes through the pointer [a.systemInfo]; the
    agent with the updated record is returned next to the error. *)
Definition GatherSystemInfo (a : Agent) : M (Agent * option error) :=
  let a := set_systemInfo a
             (set_OSRelease (systemInfo a) (osRelease (osDetector a))) in
  let* '(packages, err) := GetInstalledPackages (pkgManager a) in
  match err with
  | Some e => ret (a, Some e)
  | None =>
      let a := set_systemInfo a (set_Packages (systemInfo a) packages) in
      let* configs := collect_configs (configReader a) packages ∅ in
      let a := set_systemInfo a (set_Configurations (systemInfo a) configs) in
      ret (a, None)
  end.

(** [main]; the value is the exit code of the process ([os.Exit(1)] on the
    three fatal paths, 0 when [main] returns). *)
Definition main : M Z :=
  let* r := NewAgent in
  match r with
  | Error err =>
      fmt_Printf ("Failed to initialize agent: " +:+ err +:+ NL) ;;; ret 1%Z
  | Ok agent =>
      let* '(agent, err) := GatherSystemInfo agent in
      match err with
      | Some e =>
          fmt_Printf ("Failed to gather system info: " +:+ e +:+ NL) ;;; ret 1%Z
      | None =>
          let '(jsonData, err) := MarshalIndent (systemInfo agent) in
          match err with
          | Some e =>
              fmt_Printf ("Failed to marshal system info: " +:+ e +:+ NL) ;;;
              ret 1%Z
          | None => fmt_Println jsonData ;;; ret 0%Z
          end
      end
  end.

End Program.

(** ** The specification's wording, for comparison with the code *)

(** The record a line of the package query stands for: the line is split
    on tab; fewer than two fields give no record; the first two fields are
    the name and the version; a third field, when present, is split on
    single spaces into the declared configuration paths. *)
Definition record_of_line (line : string) : list Package :=
  match strings.Split line TAB with
  | name :: version :: rest =>
      [ {| Name := name;
           Version := version;
           ConfigFiles := match rest with
                          | third :: _ => strings.Split third " "
                          | [] => []
                          end;
           RequiredPackages := [] |} ]
  | _ => []
  end.

(** The output is split on newline, empty lines are skipped, and every
    remaining line contributes its record, in order. *)
Definition records_of_output (output : string) : list Package :=
  mjoin (record_of_line <$> filter (λ line, line ≠ "") (strings.Split output NL)).

(** The identity tokens of the RPM family. *)
Definition rhel_family : list string := ["rhel"; "centos"; "fedora"].

(** [lowered] has one of the tokens as a substring. *)
Definition contains_token (lowered : string) : Prop :=
  ∃ tok pre suf, tok ∈ rhel_family ∧ lowered = pre +:+ tok +:+ suf.

(** [c] is one of the bytes of [s]. *)
Definition has_byte (c : ascii) (s : string) : Prop :=
  c ∈ String.list_ascii_of_string s.

Global Instance has_byte_dec c s : Decision (has_byte c s).
Proof. unfold has_byte. apply _. Defined.

(** The path the reader opens for a declared path. *)
Definition full_path (cr : ConfigurationReader) (path : string) : string :=
  filepath.Join [rootDir cr; path].



(** The paths the packages declare, in the order of the two loops. *)
Definition declared_paths (packages : list Package) : list string :=
  mjoin (ConfigFiles <$> packages).

(** A write of the collector: a warning, on standard output. *)
Definition is_warning_write (ev : Event) : Prop :=
  match ev with
  | EvWrite fd data => fd = Stdout ∧ ∃ path err, data = warning path err
  | _ => True
  end.

(** The agent [NewAgent] builds from the content of the descriptor file. *)
Definition agent_of_descriptor (mapUnicodeLower : string → string)
    (content : string) : Agent :=
  {| osDetector := {| osRelease := osRelease_of_content content |};
     pkgManager :=
       NewPackageManager mapUnicodeLower
         (default "" (osRelease_of_content content !! "ID"));
     configReader := NewConfigurationReader "/";
     systemInfo := {| OSRelease := ∅; Packages := []; Configurations := ∅ |} |}.

(** The events every run starts with: the read of the descriptor file. *)
Definition descriptor_read : list Event := [EvReadFile "/etc/os-release"].

(** Warnings and the JSON document on different streams: no stream
    carries both a warning and the document. *)
Definition separate_streams (tr : list Event) (jsonData : string) : Prop :=
  ∀ fd fd' path err,
    EvWrite fd (warning path err) ∈ tr →
    EvWrite fd' (jsonData +:+ NL) ∈ tr →
    fd ≠ fd'.

(** ** A concrete world, used to run the model *)

Module Demo.

Definition os_release : string :=
  "ID=" +:+ QUOTE +:+ "ubuntu" +:+ QUOTE +:+ NL +:+
  "VERSION_ID=" +:+ QUOTE +:+ "22.04" +:+ QUOTE +:+ NL.

Definition query_output : string :=
  "a" +:+ TAB +:+ "1.0" +:+ TAB +:+ "/etc/a.conf" +:+ NL +:+
  "b" +:+ TAB +:+ "2.0" +:+ TAB +:+ "/etc/missing.conf" +:+ NL.

Definition no_such_file (op path : string) : string * option error :=
  ("", Some (op +:+ " " +:+ path +:+ ": no such file or directory")).

Definition world : World := {|
  ReadFile_at _ path :=
    if decide (path = "/etc/os-release") then (os_release, None)
    else if decide (path = "/etc/a.conf") then ("X", None)
    else no_such_file "open" path;
  Stat_at _ path :=
    if decide (path = "/etc/a.conf")
    then ("2024-01-01 00:00:00 +0000 UTC", None)
    else no_such_file "stat" path;
  Output_at _ _ _ := (query_output, None)
|}.

(** A toy serializer: the names of the packages and the paths of the
    collected files. *)
Definition marshal (si : SystemInfo) : string * option error :=
  ("{" +:+ strings.Join (Name <$> Packages si) "," +:+ "|" +:+
   strings.Join (map_to_list (Configurations si)).*1 "," +:+ "}", None).

(** Two packages declare the same path and the file changes between
    the two reads. *)
Definition query_output_dup : string :=
  "a" +:+ TAB +:+ "1.0" +:+ TAB +:+ "/etc/x.conf" +:+ NL +:+
  "b" +:+ TAB +:+ "2.0" +:+ TAB +:+ "/etc/x.conf" +:+ NL.

Definition world_dup : World := {|
  ReadFile_at t path :=
    if decide (path = "/etc/os-release") then (os_release, None)
    else if decide (path = "/etc/x.conf")
         then (if decide (t < 3) then "old" else "new", None)
         else no_such_file "open" path;
  Stat_at t path :=
    if decide (path = "/etc/x.conf")
    then (if decide (t < 4) then "09:00" else "09:05", None)
    else no_such_file "stat" path;
  Output_at _ _ _ := (query_output_dup, None)
|}.

(** The package query prints a line whose third field is empty. *)
Definition world_empty_field : World := {|
  ReadFile_at _ path :=
    if decide (path = "/etc/os-release") then (os_release, None)
    else ("", Some ("read " +:+ path +:+ ": is a directory"));
  Stat_at _ path := ("2024-01-01 00:00:00 +0000 UTC", None);
  Output_at _ _ _ := ("name" +:+ TAB +:+ "version" +:+ TAB +:+ NL, None)
|}.

(** The package query fails. *)
Definition world_no_query : World := {|
  ReadFile_at _ path :=
    if decide (path = "/etc/os-release") then (os_release, None)
    else no_such_file "open" path;
  Stat_at _ path := no_such_file "stat" path;
  Output_at _ _ _ := ("partial", Some "exit status 2")
|}.

Definition agent : Agent := agent_of_descriptor id os_release.

End Demo.

(** ** Further definitions, for the properties of the code beyond the claims *)

(** The first and the last byte of a string. *)
Definition first_byte (s : string) : option ascii :=
  match s with
  | "" => None
  | String c _ => Some c
  end.

Fixpoint last_byte (s : string) : option ascii :=
  match s with
  | "" => None
  | String c "" => Some c
  | String _ s' => last_byte s'
  end.

(** A string that does not start and does not end with the byte [q]. *)
Definition bare (q : ascii) (s : string) : Prop :=
  first_byte s ≠ Some q ∧ last_byte s ≠ Some q.

(** The line of the query format for a package (name, version and the
    configuration paths separated by single spaces, tab-separated), and the
    output for a list of packages, one line each. *)
Definition render_package (pkg : Package) : string :=
  Name pkg +:+ TAB +:+ Version pkg +:+ TAB +:+ strings.Join (ConfigFiles pkg) " ".

Fixpoint render_packages (packages : list Package) : string :=
  match packages with
  | [] => ""
  | pkg :: packages' => render_package pkg +:+ NL +:+ render_packages packages'
  end.

(** A record the query format can carry: no tab or newline in the name and
    the version, at least one configuration path, no space, tab or newline
    in a path, and no required packages (the parser never fills them). *)
Definition printable_package (pkg : Package) : Prop :=
  ¬ has_byte "009"%char (Name pkg) ∧ ¬ has_byte "010"%char (Name pkg)
  ∧ ¬ has_byte "009"%char (Version pkg) ∧ ¬ has_byte "010"%char (Version pkg)
  ∧ ConfigFiles pkg ≠ []
  ∧ Forall (λ path, ¬ has_byte " "%char path ∧ ¬ has_byte "009"%char path
                    ∧ ¬ has_byte "010"%char path) (ConfigFiles pkg)
  ∧ RequiredPackages pkg = [].

(** The events of one round of the collector for a declared path: the read
    and the stat of a file that is stored, or the read (and the stat, when
    the read went through) followed by a warning. *)
Definition attempt_block (cr : ConfigurationReader) (path : string)
    (block : list Event) : Prop :=
  let full := full_path cr path in
  block = [EvReadFile full; EvStat full]
  ∨ (∃ err, block = [EvReadFile full; EvWrite Stdout (warning path err)])
  ∨ (∃ err, block = [EvReadFile full; EvStat full;
                     EvWrite Stdout (warning path err)]).

(** Events by kind. *)
Definition is_exec (ev : Event) : bool :=
  match ev with EvExec _ _ => true | _ => false end.

Definition is_write (ev : Event) : bool :=
  match ev with EvWrite _ _ => true | _ => false end.

(** An element of a cleaned path: not empty, not [.], not [..], and
    without a separator inside. *)
Definition plain_elem (e : string) : Prop :=
  e ≠ "" ∧ e ≠ "." ∧ e ≠ ".." ∧ ¬ has_byte "/"%char e.

(** A descriptor with one line [key="value"] per assignment. *)
Fixpoint render_descriptor (assignments : list (string * string)) : string :=
  match assignments with
  | [] => ""
  | (key, value) :: assignments' =>
      key +:+ "=" +:+ (QUOTE +:+ value +:+ QUOTE) +:+ NL
      +:+ render_descriptor assignments'
  end.

(** An assignment such a line can carry: no "=", newline or double quote
    in the key, no newline or double quote in the value. *)
Definition printable_assignment (kv : string * string) : Prop :=
  ¬ has_byte "="%char kv.1 ∧ ¬ has_byte "010"%char kv.1
  ∧ ¬ has_byte "034"%char kv.1
  ∧ ¬ has_byte "010"%char kv.2 ∧ ¬ has_byte "034"%char kv.2.

(** ** The Go [encoding/json] package, as far as the program uses it *)

Module json.

(** The value trees the encoder walks. *)
#[warnings="-register-all"] Inductive value :=
  | VNull
  | VString (s : string)
  | VArray (elems : list value)
  | VObject (members : list (string * value)).

(** [indent] repeated [depth] times, for [indent = "  "]. *)
Fixpoint indentation (depth : nat) : string :=
  match depth with
  | 0 => ""
  | S depth' => "  " +:+ indentation depth'
  end.

(** The newline of [Indent]: a line break, the (empty) prefix and the
    indentation of the depth. *)
Definition newline (depth : nat) : string := NL +:+ indentation depth.

(** The text of a value as [MarshalIndent(v, "", "  ")] lays it out: an
    empty array or object stays closed on one line; otherwise every
    element goes on a line of its own, one level deeper, elements are
    separated by a comma, a key is followed by a colon and a space, and the
    closing bracket is on a line of its own.  [encodeString] is the JSON
    string literal of a Go string (quotes, escapes and the replacement of
    invalid UTF-8 included). *)
Fixpoint render (encodeString : string → string) (depth : nat) (v : value)
  : string :=
  match v with
  | VNull => "null"
  | VString s => encodeString s
  | VArray [] => "[]"
  | VArray elems =>
      "[" +:+ newline (S depth)
      +:+ strings.Join (List.map (render encodeString (S depth)) elems)
            ("," +:+ newline (S depth))
      +:+ newline depth +:+ "]"
  | VObject [] => "{}"
  | VObject members =>
      "{" +:+ newline (S depth)
      +:+ strings.Join
            (List.map (λ '(key, member),
                         encodeString key +:+ ": "
                         +:+ render encodeString (S depth) member) members)
            ("," +:+ newline (S depth))
      +:+ newline depth +:+ "}"
  end.

(** The encoder sorts the entries of a map by key (byte-wise). *)
Definition key_le {V} : relation (string * V) := λ a b, String.le a.1 b.1.

Global Instance key_le_dec {V} : RelDecision (@key_le V).
Proof. intros a b. unfold key_le. apply _. Defined.

Definition sort_entries {V} (entries : list (string * V)) : list (string * V) :=
  merge_sort key_le entries.

(** The order in which the runtime hands out the entries of a map when it
    is ranged over: unspecified in Go, and different from run to run. *)
Record MapIteration := {
  range_strings : gmap string string → list (string * string);
  range_configs : gmap string ConfigFile → list (string * ConfigFile)
}.

(** Whatever the order, ranging over a map yields each entry once. *)
Definition valid_iteration (it : MapIteration) : Prop :=
  (∀ m, range_strings it m ≡ₚ map_to_list m)
  ∧ (∀ m, range_configs it m ≡ₚ map_to_list m).

(** A [[]string]: the nil slice is [null]. *)
Definition strings_value (l : list string) : value :=
  match l with
  | [] => VNull
  | _ => VArray (VString <$> l)
  end.

(** The structs, field by field in the order of their declaration. *)
Definition package_value (pkg : Package) : value :=
  VObject [("Name", VString (Name pkg));
           ("Version", VString (Version pkg));
           ("ConfigFiles", strings_value (ConfigFiles pkg));
           ("RequiredPackages", strings_value (RequiredPackages pkg))].

Definition config_value (config : ConfigFile) : value :=
  VObject [("Path", VString (Path config));
           ("Content", VString (Content config));
           ("Modified", VString (Modified config))].

(** The snapshot [main] serializes: both maps were made with [make], so an
    empty one is the empty object; the package slice is nil when no record
    was appended. *)
Definition systemInfo_value (it : MapIteration) (si : SystemInfo) : value :=
  VObject
    [("OSRelease",
      VObject ((λ '(key, v), (key, VString v))
                 <$> sort_entries (range_strings it (OSRelease si))));
     ("Packages",
      match Packages si with
      | [] => VNull
      | packages => VArray (package_value <$> packages)
      end);
     ("Configurations",
      VObject ((λ '(key, config), (key, config_value config))
                 <$> sort_entries (range_configs it (Configurations si))))].

(** [json.MarshalIndent(agent.systemInfo, "", "  ")]: strings, slices,
    string-keyed maps and structs of those always serialize, so the error
    is nil. *)
Definition MarshalIndent (encodeString : string → string) (it : MapIteration)
    (si : SystemInfo) : string * option error :=
  (render encodeString 0 (systemInfo_value it si), None).

End json.

(** What a read and a stat of a declared path give at a moment: the
    snapshot the reader builds, or nothing when one of them fails. *)
Definition snapshot_at (W : World) (cr : ConfigurationReader) (t : nat)
    (path : string) : option ConfigFile :=
  match ReadFile_at W t (full_path cr path), Stat_at W t (full_path cr path) with
  | (content, None), (modTime, None) =>
      Some {| Path := path; Content := content; Modified := modTime |}
  | _, _ => None
  end.

(** Two runs of the demo, on different machines. *)
Module Demo3.

(** The files and the query of [Demo.world], among other files, other
    commands and other answers at other moments. *)
Definition world_elsewhere : World := {|
  ReadFile_at t path :=
    if decide (path = "/etc/os-release")
    then (if decide (t = 0) then Demo.os_release else "ID=fedora", None)
    else if decide (path = "/etc/a.conf") then ("X", None)
    else if decide (path = "/etc/missing.conf")
         then Demo.no_such_file "open" path
         else ("something else", None);
  Stat_at t path :=
    if decide (path = "/etc/a.conf")
    then ("2024-01-01 00:00:00 +0000 UTC", None)
    else if decide (path = "/etc/missing.conf")
         then Demo.no_such_file "stat" path
         else ("2025-05-05 05:05:05 +0000 UTC", None);
  Output_at t name _ :=
    if decide (name = "dpkg-query" ∧ t = 1) then (Demo.query_output, None)
    else ("", Some "exit status 1")
|}.

(** Two iteration orders: the one of [map_to_list] and its reverse. *)
Definition forwards : json.MapIteration := {|
  json.range_strings m := map_to_list m;
  json.range_configs m := map_to_list m
|}.

Definition backwards : json.MapIteration := {|
  json.range_strings m := reverse (map_to_list m);
  json.range_configs m := reverse (map_to_list m)
|}.

(** A string encoder for plain text, with apostrophes for quotes. *)
Definition encode_plain (s : string) : string := "'" +:+ s +:+ "'".

End Demo3.

(** More worlds to run the model in. *)
Module Demo2.

(** The descriptor file cannot be read. *)
Definition world_no_descriptor : World := {|
  ReadFile_at _ path := Demo.no_such_file "open" path;
  Stat_at _ path := Demo.no_such_file "stat" path;
  Output_at _ _ _ := (Demo.query_output, None)
|}.

(** A descriptor of the RPM family that assigns ID twice and has a
    comment and a blank line. *)
Definition os_release_rhel : string :=
  "# release" +:+ NL +:+
  "ID=centos" +:+ NL +:+
  "NAME=" +:+ QUOTE +:+ "Red Hat" +:+ QUOTE +:+ NL +:+
  NL +:+
  "ID=" +:+ QUOTE +:+ "RHEL" +:+ QUOTE +:+ NL.

Definition world_rhel : World := {|
  ReadFile_at _ path :=
    if decide (path = "/etc/os-release") then (os_release_rhel, None)
    else if decide (path = "/etc/a.conf") then ("X", None)
    else Demo.no_such_file "open" path;
  Stat_at _ path :=
    if decide (path = "/etc/a.conf")
    then ("2024-01-01 00:00:00 +0000 UTC", None)
    else Demo.no_such_file "stat" path;
  Output_at _ _ _ := (Demo.query_output, None)
|}.

(** A descriptor without an ID line. *)
Definition os_release_anonymous : string :=
  "NAME=" +:+ QUOTE +:+ "Some Linux" +:+ QUOTE +:+ NL.

Definition world_anonymous : World := {|
  ReadFile_at _ path :=
    if decide (path = "/etc/os-release") then (os_release_anonymous, None)
    else Demo.no_such_file "open" path;
  Stat_at _ path := Demo.no_such_file "stat" path;
  Output_at _ _ _ := ("", None)
|}.

(** A serializer that fails. *)
Definition marshal_fails (si : SystemInfo) : string * option error :=
  ("", Some "json: unsupported value").

Definition two_packages : list Package :=
  [ {| Name := "a"; Version := "1.0"; ConfigFiles := ["/etc/a.conf"];
       RequiredPackages := [] |};
    {| Name := "b"; Version := "2.0";
       ConfigFiles := ["/etc/b.conf"; "/etc/b.d/x"];
       RequiredPackages := [] |} ].

End Demo2.

(** ** Facts about the string functions *)

Local Arguments String.append !_ _ / : simpl nomatch.

Section string_facts.
Import strings.

Lemma append_nil_r s : s +:+ "" = s.
Proof. induction s as [|c s IH]; simpl; [done | by rewrite IH]. Qed.

Lemma append_assoc s t u : (s +:+ t) +:+ u = s +:+ (t +:+ u).
Proof. induction s as [|c s IH]; simpl; [done | by rewrite IH]. Qed.

Lemma len_app s t : len (s +:+ t) = len s + len t.
Proof. induction s as [|c s IH]; simpl; [done | by rewrite IH]. Qed.

Lemma has_byte_nil c : ¬ has_byte c "".
Proof. unfold has_byte; simpl. by intros ?%elem_of_nil. Qed.

Lemma has_byte_cons c d s : has_byte c (String d s) ↔ c = d ∨ has_byte c s.
Proof. unfold has_byte; simpl. apply elem_of_cons. Qed.

Lemma has_byte_app c s t : has_byte c (s +:+ t) ↔ has_byte c s ∨ has_byte c t.
Proof.
  induction s as [|d s IH]; simpl.
  - split; [by right | intros [[]%has_byte_nil | H]; done].
  - rewrite !has_byte_cons, IH. tauto.
Qed.

Lemma slice_to_from s n : slice_to s n +:+ slice_from s n = s.
Proof.
  revert n; induction s as [|c s IH]; intros [|n]; simpl; try done.
  by rewrite IH.
Qed.

Lemma slice_to_app s t : slice_to (s +:+ t) (len s) = s.
Proof. induction s as [|c s IH]; simpl; [by destruct t | by rewrite IH]. Qed.

Lemma slice_from_app s t : slice_from (s +:+ t) (len s) = t.
Proof. induction s as [|c s IH]; simpl; [by destruct t | done]. Qed.

Lemma len_slice_from s n : len (slice_from s n) = len s - n.
Proof.
  revert n; induction s as [|c s IH]; intros [|n]; simpl; done.
Qed.

Lemma len_slice_to s n : n ≤ len s → len (slice_to s n) = n.
Proof.
  revert n; induction s as [|c s IH]; intros [|n]; simpl; try done; try lia.
  intros ?. rewrite IH; lia.
Qed.

Lemma HasPrefix_app p t : HasPrefix (p +:+ t) p = true.
Proof.
  induction p as [|c p IH]; simpl; [done|].
  by rewrite decide_True.
Qed.

Lemma HasPrefix_inv s p :
  HasPrefix s p = true → s = p +:+ slice_from s (len p).
Proof.
  revert s; induction p as [|c p IH]; intros [|d s]; simpl; try done.
  case_decide; [|done]. subst. intros H. f_equal. by apply IH.
Qed.

Lemma HasPrefix_byte c s :
  HasPrefix s (String c "") = true ↔ ∃ t, s = String c t.
Proof.
  destruct s as [|d s]; simpl.
  - split; [done | by intros [? ?]].
  - case_decide; subst; split; try done; eauto.
    intros [t [= ? ?]]; congruence.
Qed.

(** [Index] returns -1 or a position at which [substr] fits. *)
Lemma Index_range s substr :
  Index s substr = (-1)%Z ∨
  (0 ≤ Index s substr)%Z ∧ Z.to_nat (Index s substr) + len substr ≤ len s.
Proof.
  induction s as [|c s IH]; simpl.
  - destruct (HasPrefix "" substr) eqn:Hp; [|by left].
    right. destruct substr; [simpl; lia | done].
  - destruct (HasPrefix (String c s) substr) eqn:Hp.
    + right. apply HasPrefix_inv in Hp. split; [lia|].
      apply (f_equal len) in Hp. rewrite len_app in Hp. simpl in *. lia.
    + destruct IH as [-> | [H0 Hle]]; [by left|].
      right. destruct (Z.ltb_spec (Index s substr) 0); [lia|].
      split; [lia|]. rewrite Z2Nat.inj_add by lia. simpl. lia.
Qed.

(** A found [Index] cuts the string around the first instance. *)
Lemma Index_found s substr :
  (0 ≤ Index s substr)%Z →
  s = slice_to s (Z.to_nat (Index s substr)) +:+ substr
        +:+ slice_from s (Z.to_nat (Index s substr) + len substr).
Proof.
  induction s as [|c s IH]; simpl.
  - destruct (HasPrefix "" substr) eqn:Hp; [|lia].
    intros _. destruct substr; [done | done].
  - destruct (HasPrefix (String c s) substr) eqn:Hp.
    + intros _. simpl. by apply HasPrefix_inv in Hp.
    + destruct (Z.ltb_spec (Index s substr) 0); [lia|]. intros _.
      rewrite Z2Nat.inj_add by lia. rewrite Nat.add_1_r at 1. simpl.
      replace (Z.to_nat (Index s substr) + Z.to_nat 1 + len substr)
        with (S (Z.to_nat (Index s substr) + len substr)) by lia.
      simpl. f_equal. apply IH. lia.
Qed.

(** Any instance of [substr] makes [Index] succeed. *)
Lemma Index_occurs pre substr suf :
  (0 ≤ Index (pre +:+ substr +:+ suf) substr)%Z.
Proof.
  induction pre as [|c pre IH]; simpl.
  - destruct (substr +:+ suf) eqn:E; simpl;
      (destruct (HasPrefix _ substr) eqn:Hp; [lia|]);
      rewrite <- E, HasPrefix_app in Hp; done.
  - destruct (HasPrefix _ substr); [lia|].
    destruct (Z.ltb_spec (Index (pre +:+ substr +:+ suf) substr) 0); lia.
Qed.

Lemma Contains_iff s substr :
  Contains s substr = true ↔ ∃ pre suf, s = pre +:+ substr +:+ suf.
Proof.
  unfold Contains. rewrite Z.leb_le. split.
  - intros H. eexists _, _. by apply Index_found.
  - intros (pre & suf & ->). apply Index_occurs.
Qed.

(** One-byte separators. *)
Lemma Index_byte_absent c s :
  ¬ has_byte c s → Index s (String c "") = (-1)%Z.
Proof.
  induction s as [|d s IH]; simpl; [done|].
  rewrite has_byte_cons. intros H.
  rewrite decide_False by (intros ->; tauto).
  rewrite IH by tauto. done.
Qed.

Lemma Index_byte_first c k v :
  ¬ has_byte c k → Index (k +:+ String c v) (String c "") = Z.of_nat (len k).
Proof.
  induction k as [|d k IH]; simpl.
  - intros _. by rewrite decide_True.
  - rewrite has_byte_cons. intros H.
    rewrite decide_False by (intros ->; tauto).
    rewrite IH by tauto.
    destruct (Z.ltb_spec (Z.of_nat (len k)) 0); lia.
Qed.

Lemma Index_byte_before c s :
  (0 ≤ Index s (String c ""))%Z →
  ¬ has_byte c (slice_to s (Z.to_nat (Index s (String c "")))).
Proof.
  induction s as [|d s IH]; simpl; [intros _; apply has_byte_nil|].
  case_decide as Hd.
  - intros _. simpl. apply has_byte_nil.
  - destruct (Z.ltb_spec (Index s (String c "")) 0); [lia|]. intros _.
    rewrite Z2Nat.inj_add by lia. rewrite Nat.add_1_r. simpl.
    rewrite has_byte_cons. intros [-> | Hin]; [done|].
    revert Hin. apply IH. lia.
Qed.

(** [Split] and [SplitN]. *)
Lemma Index_nil substr : substr ≠ "" → Index "" substr = (-1)%Z.
Proof. by destruct substr. Qed.

Lemma len_0 s : len s = 0 → s = "".
Proof. by destruct s. Qed.

Lemma Count_loop_le fuel s substr : Count_loop fuel s substr ≤ fuel.
Proof.
  revert s; induction fuel as [|fuel IH]; intros s; simpl; [done|].
  destruct (Index s substr <? 0)%Z; [lia|].
  specialize (IH (slice_from s (Z.to_nat (Index s substr) + len substr))). lia.
Qed.

Lemma Count_loop_stable substr fuel fuel' s :
  substr ≠ "" → len s ≤ fuel → len s ≤ fuel' →
  Count_loop fuel s substr = Count_loop fuel' s substr.
Proof.
  intros Hne. revert fuel' s.
  assert (Hempty : ∀ g, Count_loop g "" substr = 0).
  { intros [|g]; [done|].
    change (Count_loop (S g) "" substr)
      with (let i := Index "" substr in
            if (i <? 0)%Z then 0
            else S (Count_loop g (slice_from "" (Z.to_nat i + len substr))
                      substr)).
    by rewrite Index_nil. }
  induction fuel as [|fuel IH]; intros [|fuel'] s Hf Hg.
  - done.
  - rewrite (len_0 s) by lia. by rewrite !Hempty.
  - rewrite (len_0 s) by lia. by rewrite !Hempty.
  - simpl. destruct (Z.ltb_spec (Index s substr) 0); [done|].
    f_equal. destruct (Index_range s substr) as [E | [_ Hle]]; [lia|].
    assert (len substr ≠ 0) by (by destruct substr).
    apply IH; rewrite len_slice_from; lia.
Qed.

Lemma genSplit_loop_absent n s sep :
  (Index s sep < 0)%Z → genSplit_loop n s sep = [s].
Proof.
  intros H. destruct n; simpl; [done|].
  by destruct (Z.ltb_spec (Index s sep) 0); [|lia].
Qed.

Lemma Split_eq s sep : Split s sep = genSplit_loop (Count s sep) s sep.
Proof.
  unfold Split, genSplit. simpl.
  rewrite decide_False; [done|].
  pose proof (Count_loop_le (len s) s sep). unfold Count. lia.
Qed.

Lemma Split_absent s sep : (Index s sep < 0)%Z → Split s sep = [s].
Proof. intros H. rewrite Split_eq. by apply genSplit_loop_absent. Qed.

Lemma Split_found s sep :
  sep ≠ "" → (0 ≤ Index s sep)%Z →
  Split s sep =
    slice_to s (Z.to_nat (Index s sep))
      :: Split (slice_from s (Z.to_nat (Index s sep) + len sep)) sep.
Proof.
  intros Hne H0. rewrite !Split_eq. unfold Count.
  destruct (Index_range s sep) as [E | [_ Hle]]; [lia|].
  assert (len sep ≠ 0) by (by destruct sep).
  destruct (len s) as [|n] eqn:Hn; [lia|]. simpl.
  destruct (Z.ltb_spec (Index s sep) 0); [lia|]. simpl.
  destruct (Z.ltb_spec (Index s sep) 0); [lia|].
  f_equal. f_equal.
  apply Count_loop_stable; [done| |done].
  rewrite len_slice_from. lia.
Qed.

Lemma SplitN_2 s sep :
  sep ≠ "" →
  SplitN s sep 2 =
    if (Index s sep <? 0)%Z then [s]
    else [slice_to s (Z.to_nat (Index s sep));
          slice_from s (Z.to_nat (Index s sep) + len sep)].
Proof.
  intros Hne. unfold SplitN, genSplit. simpl.
  destruct (Z.ltb_spec (Index s sep) 0) as [Hlt | Hge].
  - by apply genSplit_loop_absent.
  - destruct (Index_range s sep) as [E | [_ Hle]]; [lia|].
    assert (len sep ≠ 0) by (by destruct sep).
    rewrite decide_False by lia. simpl.
    by destruct (Z.ltb_spec (Index s sep) 0); [lia|].
Qed.

Lemma Split_byte_absent c s :
  ¬ has_byte c s → Split s (String c "") = [s].
Proof.
  intros H. apply Split_absent. rewrite Index_byte_absent by done. lia.
Qed.

Lemma Split_byte_first c k v :
  ¬ has_byte c k →
  Split (k +:+ String c v) (String c "") = k :: Split v (String c "").
Proof.
  intros H. pose proof (Index_byte_first c k v H) as E.
  rewrite Split_found by (done || lia). rewrite E, Nat2Z.id.
  rewrite slice_to_app. f_equal. f_equal.
  replace (k +:+ String c v) with ((k +:+ String c "") +:+ v)
    by (by rewrite append_assoc).
  replace (len k + len (String c "")) with (len (k +:+ String c ""))
    by (by rewrite len_app).
  apply slice_from_app.
Qed.

Lemma Split_Join_byte c (lines : list string) :
  lines ≠ [] → (∀ l, l ∈ lines → ¬ has_byte c l) →
  Split (Join lines (String c "")) (String c "") = lines.
Proof.
  induction lines as [|l lines IH]; [done|]. intros _ Hno.
  destruct lines as [|l' lines].
  - simpl. apply Split_byte_absent, Hno. by left.
  - change (Join (l :: l' :: lines) (String c ""))
      with (l +:+ String c (Join (l' :: lines) (String c ""))).
    rewrite Split_byte_first by (apply Hno; by left).
    f_equal. apply IH; [done|]. intros x Hx. apply Hno. by right.
Qed.

Lemma SplitN_2_byte_absent c s :
  ¬ has_byte c s → SplitN s (String c "") 2 = [s].
Proof.
  intros H. rewrite SplitN_2 by done. by rewrite Index_byte_absent.
Qed.

Lemma SplitN_2_byte_first c k v :
  ¬ has_byte c k → SplitN (k +:+ String c v) (String c "") 2 = [k; v].
Proof.
  intros H. rewrite SplitN_2 by done.
  rewrite (Index_byte_first c k v H).
  destruct (Z.ltb_spec (Z.of_nat (len k)) 0); [lia|].
  rewrite Nat2Z.id, slice_to_app. f_equal. f_equal.
  replace (k +:+ String c v) with ((k +:+ String c "") +:+ v)
    by (by rewrite append_assoc).
  replace (len k + len (String c "")) with (len (k +:+ String c ""))
    by (by rewrite len_app).
  apply slice_from_app.
Qed.

(** A line that [SplitN] cuts in two has the shape [k=v] with no
    separator byte in [k]. *)
Lemma SplitN_2_byte_inv c s k v :
  SplitN s (String c "") 2 = [k; v] →
  s = k +:+ String c v ∧ ¬ has_byte c k.
Proof.
  rewrite SplitN_2 by done.
  destruct (Z.ltb_spec (Index s (String c "")) 0) as [Hlt | Hge]; [done|].
  intros [= <- <-]. split.
  - by apply (Index_found s (String c "")).
  - by apply Index_byte_before.
Qed.

End string_facts.

(** ** The library models on the examples of the Go documentation *)

Example Index_examples :
  strings.Index "chicken" "ken" = 4%Z ∧ strings.Index "chicken" "dmr" = (-1)%Z.
Proof. split; reflexivity. Qed.

Example Contains_examples :
  strings.Contains "seafood" "foo" = true
  ∧ strings.Contains "seafood" "bar" = false
  ∧ strings.Contains "seafood" "" = true
  ∧ strings.Contains "" "" = true.
Proof. repeat split; reflexivity. Qed.

Example Count_example : strings.Count "cheese" "e" = 3.
Proof. reflexivity. Qed.

Example Split_examples :
  strings.Split "a,b,c" "," = ["a"; "b"; "c"]
  ∧ strings.Split "a man a plan a canal panama" "a "
    = [""; "man "; "plan "; "canal panama"]
  ∧ strings.Split "" "Bernardo O'Higgins" = [""].
Proof. repeat split; reflexivity. Qed.

Example SplitN_examples :
  strings.SplitN "a,b,c,d" "," 2 = ["a"; "b,c,d"]
  ∧ strings.SplitN "a,b,c,d" "," 0 = []
  ∧ strings.SplitN "a,b,c,d" "," (-1) = ["a"; "b"; "c"; "d"].
Proof. repeat split; reflexivity. Qed.

Example Trim_examples :
  strings.Trim "!!!Hello, Gophers!!!" "!" = "Hello, Gophers"
  ∧ strings.Trim (QUOTE +:+ QUOTE +:+ "a" +:+ QUOTE +:+ "b" +:+ QUOTE) QUOTE
    = "a" +:+ QUOTE +:+ "b".
Proof. split; reflexivity. Qed.

Example ToLower_example : strings.ToLower id "Gopher" = "gopher".
Proof. reflexivity. Qed.

Example Join_example : strings.Join ["foo"; "bar"; "baz"] ", " = "foo, bar, baz".
Proof. reflexivity. Qed.

Example Clean_examples :
  filepath.Clean "a//c" = "a/c"
  ∧ filepath.Clean "a/c/." = "a/c"
  ∧ filepath.Clean "a/c/b/.." = "a/c"
  ∧ filepath.Clean "/../a/c" = "/a/c"
  ∧ filepath.Clean "/../a/b/../././/c" = "/a/c"
  ∧ filepath.Clean "" = "."
  ∧ filepath.Clean "../../a/.." = "../.."
  ∧ filepath.Clean "/" = "/".
Proof. repeat split; reflexivity. Qed.

Example filepath_Join_examples :
  filepath.Join ["a"; "b"; "c"] = "a/b/c"
  ∧ filepath.Join ["a"; "b/c"] = "a/b/c"
  ∧ filepath.Join ["a/b"; "../../../xyz"] = "../xyz"
  ∧ filepath.Join ["a"; ""] = "a"
  ∧ filepath.Join [""; "a"] = "a"
  ∧ filepath.Join [""; ""] = ""
  ∧ filepath.Join ["/"; "/etc/foo.conf"] = "/etc/foo.conf"
  ∧ filepath.Join ["/"; ""] = "/".
Proof. repeat split; reflexivity. Qed.

(** ** Package enumeration *)

Lemma parse_loop_records (lines : list string) (acc : list Package) :
  foldl package_step acc lines
  = acc ++ mjoin (record_of_line <$> filter (λ line, line ≠ "") lines).
Proof.
  revert acc; induction lines as [|line lines IH]; intros acc; simpl.
  - by rewrite app_nil_r.
  - rewrite IH. unfold package_step.
    destruct (decide (line = "")) as [-> | Hne].
    + by rewrite filter_cons_False by naive_solver.
    + rewrite filter_cons_True by done. simpl.
      unfold record_of_line.
      destruct (strings.Split line TAB) as [|f1 [|f2 [|f3 rest]]]; simpl;
        try done; by rewrite <- app_assoc.
Qed.

Lemma packages_of_output_records output :
  packages_of_output output = records_of_output output.
Proof. unfold packages_of_output. by rewrite parse_loop_records. Qed.

(** C1: whatever the package query printed, the enumerator returns the
    records of its non-empty lines that have at least two tab-separated
    fields: name, version and the third field split on single spaces.  The
    line "foo<TAB>1.0<TAB>/etc/foo.conf /etc/foo2.conf" gives exactly one
    record with the two paths, and the line "bar" gives none. *)
Theorem GetInstalledPackages_parses (W : World) (pm : PackageManager)
    (tr : list Event) (output : string) :
  Output_at W (length tr) (query_command pm).1 (query_command pm).2
    = (output, None) →
  (GetInstalledPackages W pm tr).1 = (records_of_output output, None)
  ∧ (output = "foo" +:+ TAB +:+ "1.0" +:+ TAB
                +:+ "/etc/foo.conf /etc/foo2.conf" +:+ NL →
     (GetInstalledPackages W pm tr).1
     = ([ {| Name := "foo"; Version := "1.0";
             ConfigFiles := ["/etc/foo.conf"; "/etc/foo2.conf"];
             RequiredPackages := [] |} ], None))
  ∧ (output = "bar" +:+ NL → (GetInstalledPackages W pm tr).1 = ([], None)).
Proof.
  intros Hout.
  assert (E : (GetInstalledPackages W pm tr).1 = (packages_of_output output, None)).
  { unfold GetInstalledPackages, bind, exec_Output. by rewrite Hout. }
  rewrite E. split; [by rewrite packages_of_output_records|].
  split; intros ->; reflexivity.
Qed.

Lemma GetInstalledPackages_parses_witness :
  (GetInstalledPackages
     {| ReadFile_at _ _ := ("", None); Stat_at _ _ := ("", None);
        Output_at _ _ _ := ("bar" +:+ NL, None) |}
     {| pkgType := "apt" |} []).1 = ([], None).
Proof.
  refine (proj2 (proj2 (GetInstalledPackages_parses _ _ [] ("bar" +:+ NL) _)) _);
    reflexivity.
Defined.

(** ** Backend selection *)

Lemma contains_token_iff lowered :
  contains_token lowered ↔
  strings.Contains lowered "rhel" || strings.Contains lowered "centos"
  || strings.Contains lowered "fedora" = true.
Proof.
  rewrite !orb_true_iff, !Contains_iff. unfold contains_token, rhel_family.
  split.
  - intros (tok & pre & suf & Htok & ->).
    rewrite !elem_of_cons, elem_of_nil in Htok.
    destruct Htok as [-> | [-> | [-> | []]]]; eauto.
  - intros [[(pre & suf & ->) | (pre & suf & ->)] | (pre & suf & ->)];
      eexists _, pre, suf; (split; [|done]); set_solver.
Qed.

(** C2: the selector is a function defined on every ID: it answers "rpm"
    exactly when the lower-cased ID has "rhel", "centos" or "fedora" as a
    substring and "apt" for every other ID; two IDs that differ by letter
    case only get the same answer, so "RHEL", "rhel" and "Rhel" all select
    RPM. *)
Theorem NewPackageManager_by_token (mapUnicodeLower : string → string)
    (osID other : string) :
  strings.ToLower mapUnicodeLower other = strings.ToLower mapUnicodeLower osID →
  (contains_token (strings.ToLower mapUnicodeLower osID) →
   NewPackageManager mapUnicodeLower osID = {| pkgType := "rpm" |})
  ∧ (¬ contains_token (strings.ToLower mapUnicodeLower osID) →
     NewPackageManager mapUnicodeLower osID = {| pkgType := "apt" |})
  ∧ NewPackageManager mapUnicodeLower other
    = NewPackageManager mapUnicodeLower osID
  ∧ NewPackageManager mapUnicodeLower "RHEL" = {| pkgType := "rpm" |}
  ∧ NewPackageManager mapUnicodeLower "rhel" = {| pkgType := "rpm" |}
  ∧ NewPackageManager mapUnicodeLower "Rhel" = {| pkgType := "rpm" |}.
Proof.
  intros Hfold. unfold NewPackageManager at 1 2.
  split; [|split; [|split]].
  - intros H%contains_token_iff. by rewrite H.
  - intros H. rewrite contains_token_iff in H.
    by apply not_true_is_false in H as ->.
  - unfold NewPackageManager. by rewrite Hfold.
  - repeat split.
Qed.

Lemma NewPackageManager_by_token_witness :
  NewPackageManager id "FeDoRa-39" = NewPackageManager id "fedora-39".
Proof.
  refine (proj1 (proj2 (proj2
            (NewPackageManager_by_token id "fedora-39" "FeDoRa-39" _))));
    reflexivity.
Defined.

(** ** The loops of the configuration collector *)

Lemma for_range_app {A S} (xs ys : list A) (body : A → S → M S) acc tr :
  for_range (xs ++ ys) body acc tr
  = let '(acc', tr') := for_range xs body acc tr in for_range ys body acc' tr'.
Proof.
  revert acc tr; induction xs as [|x xs IH]; intros acc tr; simpl; [done|].
  unfold bind. destruct (body x acc tr) as [acc' tr']. apply IH.
Qed.

Lemma for_range_invariant {A S} (body : A → S → M S) (I : S → list Event → Prop)
    (xs : list A) :
  (∀ x acc tr, x ∈ xs → I acc tr → I (body x acc tr).1 (body x acc tr).2) →
  ∀ acc tr, I acc tr →
    I (for_range xs body acc tr).1 (for_range xs body acc tr).2.
Proof.
  induction xs as [|x xs IH]; intros Hstep acc tr HI; simpl; [done|].
  unfold bind. destruct (body x acc tr) as [acc' tr'] eqn:E.
  apply IH.
  - intros y acc0 tr0 Hy. apply Hstep. by right.
  - specialize (Hstep x acc tr). rewrite E in Hstep. apply Hstep; [by left|done].
Qed.

Lemma collect_configs_flat W cr packages configs tr :
  collect_configs W cr packages configs tr
  = for_range (declared_paths packages) (collect_path W cr) configs tr.
Proof.
  unfold collect_configs, declared_paths.
  revert configs tr; induction packages as [|pkg packages IH];
    intros configs tr; simpl; [done|].
  rewrite for_range_app. unfold bind.
  destruct (for_range (ConfigFiles pkg) _ configs tr) as [configs' tr'].
  apply IH.
Qed.

(** One round of the inner loop, by cases on what the system answers. *)
Lemma collect_path_eq W cr path configs tr :
  collect_path W cr path configs tr =
    let full := full_path cr path in
    match ReadFile_at W (length tr) full with
    | (_, Some e) =>
        (configs,
         tr ++ [EvReadFile full;
                EvWrite Stdout
                  (warning path
                     ("failed to read config file " +:+ path +:+ ": " +:+ e))])
    | (content, None) =>
        match Stat_at W (S (length tr)) full with
        | (_, Some e) =>
            (configs,
             tr ++ [EvReadFile full; EvStat full;
                    EvWrite Stdout
                      (warning path
                         ("failed to get file info for " +:+ path +:+ ": " +:+ e))])
        | (modTime, None) =>
            (<[path := {| Path := path; Content := content;
                          Modified := modTime |}]> configs,
             tr ++ [EvReadFile full; EvStat full])
        end
    end.
Proof.
  unfold collect_path, ReadConfigFile, bind, ioutil_ReadFile, os_Stat,
    fmt_Printf, ret, full_path. cbv zeta.
  destruct (ReadFile_at W (length tr) _) as [content [e|]].
  - by rewrite <- (assoc_L (++)).
  - rewrite length_app, Nat.add_1_r. cbn [length].
    destruct (Stat_at W (S (length tr)) _) as [modTime [e|]];
      by rewrite <- !(assoc_L (++)).
Qed.

Lemma ReadConfigFile_eq W cr path tr :
  ReadConfigFile W cr path tr =
    let full := full_path cr path in
    match ReadFile_at W (length tr) full with
    | (_, Some e) =>
        (Error ("failed to read config file " +:+ path +:+ ": " +:+ e),
         tr ++ [EvReadFile full])
    | (content, None) =>
        match Stat_at W (S (length tr)) full with
        | (_, Some e) =>
            (Error ("failed to get file info for " +:+ path +:+ ": " +:+ e),
             tr ++ [EvReadFile full; EvStat full])
        | (modTime, None) =>
            (Ok {| Path := path; Content := content; Modified := modTime |},
             tr ++ [EvReadFile full; EvStat full])
        end
    end.
Proof.
  unfold ReadConfigFile, bind, ioutil_ReadFile, os_Stat, ret, full_path.
  cbv zeta.
  destruct (ReadFile_at W (length tr) _) as [content [e|]]; [done|].
  rewrite length_app, Nat.add_1_r. cbn [length].
  destruct (Stat_at W (S (length tr)) _) as [modTime [e|]];
    by rewrite <- !(assoc_L (++)).
Qed.

(** A round is a successful read that inserts the snapshot, or a failed
    one that leaves the mapping alone. *)
Lemma collect_path_ReadConfigFile W cr path configs tr :
  (collect_path W cr path configs tr).1 =
    match (ReadConfigFile W cr path tr).1 with
    | Ok config => <[path := config]> configs
    | Error _ => configs
    end.
Proof.
  rewrite collect_path_eq, ReadConfigFile_eq. cbv zeta.
  destruct (ReadFile_at W (length tr) _) as [content [e|]]; [done|].
  by destruct (Stat_at W (S (length tr)) _) as [modTime [e|]].
Qed.

(** The events a round adds: one read of the full path first, and no
    write other than a warning on standard output. *)
Lemma collect_path_trace W cr path configs tr :
  ∃ evs, (collect_path W cr path configs tr).2
         = tr ++ EvReadFile (full_path cr path) :: evs
         ∧ Forall is_warning_write evs.
Proof.
  rewrite collect_path_eq. cbv zeta.
  destruct (ReadFile_at W (length tr) _) as [content [e|]].
  - eexists; split; [done|]. repeat constructor. eauto.
  - destruct (Stat_at W (S (length tr)) _) as [modTime [e|]];
      (eexists; split; [done|]); repeat constructor. eauto.
Qed.

Lemma collect_paths_trace W cr paths configs tr :
  ∃ evs, (for_range paths (collect_path W cr) configs tr).2 = tr ++ evs
         ∧ Forall is_warning_write evs.
Proof.
  apply (for_range_invariant (collect_path W cr)
           (λ _ tr', ∃ evs, tr' = tr ++ evs ∧ Forall is_warning_write evs)).
  - intros x acc tr0 _ (evs & -> & Hevs).
    destruct (collect_path_trace W cr x acc (tr ++ evs)) as (evs' & -> & Hevs').
    exists (evs ++ EvReadFile (full_path cr x) :: evs').
    split; [by rewrite (assoc_L (++))|].
    apply Forall_app; split; [done|]. by constructor.
  - exists []. by rewrite app_nil_r.
Qed.

Lemma collect_paths_dom W cr paths (configs : gmap string ConfigFile) tr :
  dom (for_range paths (collect_path W cr) configs tr).1
  ⊆ dom configs ∪ list_to_set paths.
Proof.
  apply (for_range_invariant (collect_path W cr)
           (λ (m : gmap string ConfigFile) _,
              dom m ⊆ dom configs ∪ list_to_set paths)); [|set_solver].
  intros x acc tr0 Hx Hacc. rewrite collect_path_ReadConfigFile.
  destruct (ReadConfigFile W cr x tr0).1; [|done].
  rewrite dom_insert.
  intros y [->%elem_of_singleton | Hy]%elem_of_union; [|by apply Hacc].
  by apply elem_of_union_r, elem_of_list_to_set.
Qed.

Lemma collect_paths_lookup_other W cr paths (configs : gmap string ConfigFile)
    tr path :
  path ∉ paths →
  (for_range paths (collect_path W cr) configs tr).1 !! path = configs !! path.
Proof.
  intros Hnot.
  apply (for_range_invariant (collect_path W cr)
           (λ (m : gmap string ConfigFile) _, m !! path = configs !! path));
    [|done].
  intros x acc tr0 Hx Hacc. rewrite collect_path_ReadConfigFile.
  destruct (ReadConfigFile W cr x tr0).1; [|done].
  rewrite lookup_insert_ne; [done|]. by intros ->.
Qed.




(** The rounds after a point only extend the trace. *)
Lemma collect_paths_split W cr pre path post configs tr :
  for_range (pre ++ path :: post) (collect_path W cr) configs tr
  = let s1 := for_range pre (collect_path W cr) configs tr in
    let s2 := collect_path W cr path s1.1 s1.2 in
    for_range post (collect_path W cr) s2.1 s2.2.
Proof.
  rewrite for_range_app. cbv zeta.
  destruct (for_range pre _ configs tr) as [m1 tr1]. simpl. unfold bind.
  by destruct (collect_path W cr path m1 tr1) as [m2 tr2].
Qed.

Lemma collect_paths_reads W cr paths configs tr path :
  path ∈ paths →
  ∃ evs, (for_range paths (collect_path W cr) configs tr).2 = tr ++ evs
         ∧ EvReadFile (full_path cr path) ∈ evs.
Proof.
  intros (pre & post & ->)%list_elem_of_split.
  rewrite collect_paths_split. cbv zeta.
  destruct (collect_paths_trace W cr pre configs tr) as (evs1 & -> & _).
  destruct (collect_path_trace W cr path
              (for_range pre (collect_path W cr) configs tr).1 (tr ++ evs1))
    as (evs2 & -> & _).
  destruct (collect_paths_trace W cr post
              (collect_path W cr path
                 (for_range pre (collect_path W cr) configs tr).1
                 (tr ++ evs1)).1
              (tr ++ evs1 ++ EvReadFile (full_path cr path) :: evs2))
    as (evs3 & E3 & _).
  rewrite <- (assoc_L (++)), E3.
  exists ((evs1 ++ EvReadFile (full_path cr path) :: evs2) ++ evs3).
  split; [by rewrite !(assoc_L (++))|]. set_solver.
Qed.




(** Last write wins: the snapshot read at the last declaration of a path
    is the one in the final mapping. *)
Lemma collect_paths_last W cr pre path post (configs : gmap string ConfigFile)
    tr config :
  path ∉ post →
  (ReadConfigFile W cr path
     (for_range pre (collect_path W cr) configs tr).2).1 = Ok config →
  (for_range (pre ++ path :: post) (collect_path W cr) configs tr).1 !! path
  = Some config.
Proof.
  intros Hpost Hread. rewrite collect_paths_split. cbv zeta.
  rewrite collect_paths_lookup_other by done.
  rewrite collect_path_ReadConfigFile, Hread. apply lookup_insert_eq.
Qed.

(** ** [GatherSystemInfo] and [main], unfolded *)

Lemma GatherSystemInfo_eq W a tr :
  GatherSystemInfo W a tr =
    let cmd := query_command (pkgManager a) in
    match Output_at W (length tr) cmd.1 cmd.2 with
    | (_, Some e) =>
        ((set_systemInfo a
            (set_OSRelease (systemInfo a) (osRelease (osDetector a))),
          Some ("failed to query packages: " +:+ e)),
         tr ++ [EvExec cmd.1 cmd.2])
    | (output, None) =>
        let s := for_range (declared_paths (packages_of_output output))
                   (collect_path W (configReader a)) ∅
                   (tr ++ [EvExec cmd.1 cmd.2]) in
        ((set_systemInfo a
            {| OSRelease := osRelease (osDetector a);
               Packages := packages_of_output output;
               Configurations := s.1 |}, None), s.2)
    end.
Proof.
  unfold GatherSystemInfo, GetInstalledPackages, bind, exec_Output, ret.
  cbv zeta. cbn [pkgManager set_systemInfo configReader].
  destruct (Output_at W (length tr) _ _) as [output [e|]]; [done|].
  rewrite collect_configs_flat.
  by destruct (for_range _ _ _ _) as [configs tr'].
Qed.

Lemma main_eq W mapUnicodeLower MarshalIndent :
  main W mapUnicodeLower MarshalIndent [] =
    match ReadFile_at W 0 "/etc/os-release" with
    | (_, Some e) =>
        (1%Z, descriptor_read ++
                [EvWrite Stdout
                   ("Failed to initialize agent: "
                    +:+ ("failed to read os-release: " +:+ e) +:+ NL)])
    | (content, None) =>
        let run := GatherSystemInfo W
                     (agent_of_descriptor mapUnicodeLower content)
                     descriptor_read in
        match run.1.2 with
        | Some e =>
            (1%Z, run.2 ++ [EvWrite Stdout
                              ("Failed to gather system info: " +:+ e +:+ NL)])
        | None =>
            match MarshalIndent (systemInfo run.1.1) with
            | (_, Some e) =>
                (1%Z, run.2 ++ [EvWrite Stdout
                                  ("Failed to marshal system info: " +:+ e +:+ NL)])
            | (jsonData, None) =>
                (0%Z, run.2 ++ [EvWrite Stdout (jsonData +:+ NL)])
            end
        end
    end.
Proof.
  unfold main, NewAgent, NewOSDetector, bind, ioutil_ReadFile, ret,
    fmt_Println, fmt_Printf. cbn [length app].
  destruct (ReadFile_at W 0 "/etc/os-release") as [content [e|]]; [done|].
  fold (agent_of_descriptor mapUnicodeLower content). cbv zeta.
  change [EvReadFile "/etc/os-release"] with descriptor_read.
  destruct (GatherSystemInfo W _ descriptor_read) as [[a' [e|]] tr']; [done|].
  simpl. by destruct (MarshalIndent (systemInfo a')) as [jsonData [e|]].
Qed.

Lemma written_app fd tr1 tr2 :
  written fd (tr1 ++ tr2) = written fd tr1 +:+ written fd tr2.
Proof.
  induction tr1 as [|ev tr1 IH]; simpl; [done|].
  destruct ev; try done. case_decide; [|done].
  by rewrite IH, append_assoc.
Qed.

Lemma warnings_not_on_stderr evs :
  Forall is_warning_write evs → written Stderr evs = "".
Proof.
  induction 1 as [|ev evs Hev _ IH]; simpl; [done|].
  destruct ev; try done. destruct Hev as [-> _]. by rewrite decide_False.
Qed.

(** ** The configuration collector *)



(** C4: after a successful [GatherSystemInfo], every key of the
    configurations mapping is a path declared by one of the packages of the
    snapshot. *)
Theorem configurations_keys_declared (W : World) (a : Agent) (tr : list Event) :
  let run := GatherSystemInfo W a tr in
  run.1.2 = None →
  dom (Configurations (systemInfo run.1.1))
  ⊆ ⋃ ((λ pkg, list_to_set (ConfigFiles pkg) : gset string)
         <$> Packages (systemInfo run.1.1)).
Proof.
  intros run. subst run. rewrite GatherSystemInfo_eq. cbv zeta.
  destruct (Output_at W (length tr) _ _) as [output [e|]]; [done|].
  simpl. intros _ path Hpath.
  apply collect_paths_dom in Hpath.
  rewrite dom_empty, (left_id_L ∅ (∪)) in Hpath.
  apply elem_of_list_to_set in Hpath.
  unfold declared_paths in Hpath.
  apply list_elem_of_join in Hpath as (paths & Hpath & Hpaths).
  apply list_elem_of_fmap in Hpaths as (pkg & -> & Hpkg).
  apply elem_of_union_list. exists (list_to_set (ConfigFiles pkg)).
  split; [|by apply elem_of_list_to_set].
  apply list_elem_of_fmap. by exists pkg.
Qed.

Lemma configurations_keys_declared_witness :
  dom (Configurations
         (systemInfo (GatherSystemInfo Demo.world Demo.agent descriptor_read).1.1))
  ⊆ ⋃ ((λ pkg, list_to_set (ConfigFiles pkg) : gset string)
         <$> Packages
               (systemInfo
                  (GatherSystemInfo Demo.world Demo.agent descriptor_read).1.1)).
Proof.
  apply (configurations_keys_declared Demo.world Demo.agent descriptor_read).
  reflexivity.
Defined.

(** C7: the snapshot stored under a path is the one read at its last
    declaration in enumeration order.  If the package [pkg] declares
    [path] and neither the rest of its list nor any later package declares
    it again, then the mapping holds, under [path], the snapshot that this
    read returned, and holds no other entry for [path]. *)
Theorem last_declaration_wins (W : World) (a : Agent) (tr : list Event)
    (output : string) (before after : list Package) (pkg : Package)
    (c1 c2 : list string) (path : string) (config : ConfigFile) :
  Output_at W (length tr) (query_command (pkgManager a)).1
    (query_command (pkgManager a)).2 = (output, None) →
  packages_of_output output = before ++ pkg :: after →
  ConfigFiles pkg = c1 ++ path :: c2 →
  path ∉ c2 →
  (∀ later, later ∈ after → path ∉ ConfigFiles later) →
  let cr := configReader a in
  let earlier :=
    for_range (declared_paths before ++ c1) (collect_path W cr) ∅
      (tr ++ [EvExec (query_command (pkgManager a)).1
                (query_command (pkgManager a)).2]) in
  (ReadConfigFile W cr path earlier.2).1 = Ok config →
  let configs := Configurations (systemInfo (GatherSystemInfo W a tr).1.1) in
  configs !! path = Some config
  ∧ ∀ v, (path, v) ∈ map_to_list configs ↔ v = config.
Proof.
  intros Hout Hpkgs Hcf Hc2 Hafter cr earlier Hread configs.
  assert (E : configs !! path = Some config).
  { subst configs. rewrite GatherSystemInfo_eq. cbv zeta. rewrite Hout. simpl.
    rewrite Hpkgs. unfold declared_paths.
    rewrite fmap_app, join_app, fmap_cons. simpl. rewrite Hcf.
    rewrite <- !(assoc_L (++)), (assoc_L (++) _ c1). simpl.
    apply collect_paths_last; [|done].
    rewrite not_elem_of_app. split; [done|].
    intros (paths & Hin & (later & -> & Hlater)%list_elem_of_fmap)%list_elem_of_join.
    by apply (Hafter later). }
  split; [done|]. intros v. rewrite elem_of_map_to_list, E. naive_solver.
Qed.

Lemma last_declaration_wins_witness :
  Configurations
    (systemInfo (GatherSystemInfo Demo.world_dup Demo.agent descriptor_read).1.1)
    !! "/etc/x.conf"
  = Some {| Path := "/etc/x.conf"; Content := "new"; Modified := "09:05" |}.
Proof.
  refine (proj1 (last_declaration_wins Demo.world_dup Demo.agent descriptor_read
            Demo.query_output_dup
            [ {| Name := "a"; Version := "1.0"; ConfigFiles := ["/etc/x.conf"];
                 RequiredPackages := [] |} ]
            []
            {| Name := "b"; Version := "2.0"; ConfigFiles := ["/etc/x.conf"];
               RequiredPackages := [] |}
            [] [] "/etc/x.conf" _ _ _ _ _ _ _)).
  - reflexivity.
  - reflexivity.
  - reflexivity.
  - apply not_elem_of_nil.
  - intros later Hlater. by apply elem_of_nil in Hlater.
  - reflexivity.
Defined.

(** ** Fatal failure of the package query *)

(** C6: when the package-query command fails, [GetInstalledPackages]
    returns the nil list with an error, whatever the command printed; the
    run then prints the failure and exits with code 1, and its events are
    the descriptor read, the command and that message: no configuration
    file is read. *)
Theorem query_failure_is_fatal (W : World) (mapUnicodeLower : string → string)
    (MarshalIndent : SystemInfo → string * option error)
    (content printed : string) (e : error) :
  ReadFile_at W 0 "/etc/os-release" = (content, None) →
  let pm := pkgManager (agent_of_descriptor mapUnicodeLower content) in
  Output_at W 1 (query_command pm).1 (query_command pm).2 = (printed, Some e) →
  (∀ pm0 tr0 printed0 e0,
     Output_at W (length tr0) (query_command pm0).1 (query_command pm0).2
       = (printed0, Some e0) →
     GetInstalledPackages W pm0 tr0
     = (([], Some ("failed to query packages: " +:+ e0)),
        tr0 ++ [EvExec (query_command pm0).1 (query_command pm0).2]))
  ∧ main W mapUnicodeLower MarshalIndent []
    = (1%Z,
       [EvReadFile "/etc/os-release";
        EvExec (query_command pm).1 (query_command pm).2;
        EvWrite Stdout
          ("Failed to gather system info: "
           +:+ ("failed to query packages: " +:+ e) +:+ NL)]).
Proof.
  intros Hread pm Hout. split.
  - intros pm0 tr0 printed0 e0 Hout0.
    unfold GetInstalledPackages, bind, exec_Output, ret. simpl.
    by rewrite Hout0.
  - rewrite main_eq, Hread. cbv zeta. rewrite GatherSystemInfo_eq. cbv zeta.
    fold pm. simpl length. by rewrite Hout.
Qed.

Lemma query_failure_is_fatal_witness :
  (main Demo.world_no_query id Demo.marshal []).1 = 1%Z.
Proof.
  rewrite (proj2 (query_failure_is_fatal Demo.world_no_query id Demo.marshal
                    Demo.os_release "partial" "exit status 2"
                    eq_refl eq_refl)).
  reflexivity.
Defined.

(** ** The output streams *)

(** C8, as the code has it: the warnings for skipped files are written to
    standard output, the stream of the JSON document, before the document;
    nothing is written to standard error.  They do not change the exit
    code: when the descriptor is read, the package query succeeds and the
    serializer succeeds, the run exits with 0 and the last write is the
    JSON document, however many files were skipped. *)
Theorem warnings_share_stdout (W : World) (mapUnicodeLower : string → string)
    (MarshalIndent : SystemInfo → string * option error)
    (content output : string) :
  ReadFile_at W 0 "/etc/os-release" = (content, None) →
  let pm := pkgManager (agent_of_descriptor mapUnicodeLower content) in
  Output_at W 1 (query_command pm).1 (query_command pm).2 = (output, None) →
  (∀ si, (MarshalIndent si).2 = None) →
  ∃ evs si,
    main W mapUnicodeLower MarshalIndent []
    = (0%Z,
       [EvReadFile "/etc/os-release";
        EvExec (query_command pm).1 (query_command pm).2]
       ++ evs ++ [EvWrite Stdout ((MarshalIndent si).1 +:+ NL)])
    ∧ OSRelease si = osRelease_of_content content
    ∧ Packages si = packages_of_output output
    ∧ Forall is_warning_write evs
    ∧ written Stderr (main W mapUnicodeLower MarshalIndent []).2 = ""
    ∧ written Stdout (main W mapUnicodeLower MarshalIndent []).2
      = written Stdout evs +:+ (MarshalIndent si).1 +:+ NL.
Proof.
  intros Hread pm Hout Hjson.
  rewrite main_eq, Hread. cbv zeta. rewrite GatherSystemInfo_eq. cbv zeta.
  fold pm. simpl length. rewrite Hout. cbn [fst snd].
  destruct (collect_paths_trace W
              (configReader (agent_of_descriptor mapUnicodeLower content))
              (declared_paths (packages_of_output output)) ∅
              (descriptor_read ++ [EvExec (query_command pm).1 (query_command pm).2]))
    as (evs & Etr & Hevs).
  rewrite Etr.
  match goal with
  | |- context [MarshalIndent ?x] => set (si := x)
  end.
  exists evs, si. specialize (Hjson si).
  destruct (MarshalIndent si) as [jsonData [e|]]; [done|]. cbn [fst snd].
  rewrite <- !(assoc_L (++)). cbn [descriptor_read app].
  split; [done|]. split; [done|]. split; [done|]. split; [done|].
  change (?x :: ?y :: evs ++ ?z) with ([x; y] ++ evs ++ z).
  rewrite !written_app. simpl.
  rewrite (warnings_not_on_stderr evs Hevs). split; [done|].
  by rewrite append_nil_r.
Qed.

Lemma warnings_share_stdout_witness :
  ∃ evs si,
    main Demo.world id Demo.marshal []
    = (0%Z,
       [EvReadFile "/etc/os-release";
        EvExec "dpkg-query"
          ["-W"; "-f";
           "${Package}" +:+ TAB +:+ "${Version}" +:+ TAB +:+ "${Conffiles}" +:+ NL]]
       ++ evs ++ [EvWrite Stdout ((Demo.marshal si).1 +:+ NL)]).
Proof.
  destruct (warnings_share_stdout Demo.world id Demo.marshal Demo.os_release
              Demo.query_output eq_refl eq_refl (λ _, eq_refl))
    as (evs & si & E & _).
  exists evs, si. exact E.
Defined.

(** C8, as the specification words it, fails: in the run of the demo
    world, whose second package declares a missing file, the warning and
    the JSON document are both written to standard output. *)
Lemma warnings_share_stdout_counterexample :
  ¬ separate_streams (main Demo.world id Demo.marshal []).2 "{a,b|/etc/a.conf}".
Proof.
  intros H.
  apply (H Stdout Stdout "/etc/missing.conf"
           ("failed to read config file /etc/missing.conf: "
            +:+ "open /etc/missing.conf: no such file or directory"));
    [| |done]; apply list_elem_of_In; vm_compute; tauto.
Qed.

(** ** Determinism *)

Global Instance key_le_trans {V} : Transitive (@json.key_le V).
Proof. intros a b c. unfold json.key_le. apply transitivity. Qed.

Global Instance key_le_total {V} : Total (@json.key_le V).
Proof. intros a b. unfold json.key_le. apply total, _. Qed.

(** Sorting by key forgets the order in which a map was ranged over. *)
Lemma sort_entries_order {V} (m : gmap string V) (l1 l2 : list (string * V)) :
  l1 ≡ₚ map_to_list m → l2 ≡ₚ map_to_list m →
  json.sort_entries l1 = json.sort_entries l2.
Proof.
  intros H1 H2. unfold json.sort_entries.
  apply (Sorted_unique_strong json.key_le).
  - intros [k1 v1] [k2 v2] Hx1 Hx2 R12 R21.
    rewrite merge_sort_Permutation, H1 in Hx1.
    rewrite merge_sort_Permutation, H2 in Hx2.
    unfold json.key_le in R12, R21. simpl in R12, R21.
    assert (k1 = k2) as -> by (by apply (anti_symm String.le)).
    f_equal. by apply (map_to_list_unique m k2).
  - apply Sorted_merge_sort, _.
  - apply Sorted_merge_sort, _.
  - by rewrite !merge_sort_Permutation, H1, H2.
Qed.

Lemma MarshalIndent_order encodeString (it1 it2 : json.MapIteration) si :
  json.valid_iteration it1 → json.valid_iteration it2 →
  json.MarshalIndent encodeString it1 si = json.MarshalIndent encodeString it2 si.
Proof.
  intros [Hs1 Hc1] [Hs2 Hc2]. unfold json.MarshalIndent, json.systemInfo_value.
  rewrite (sort_entries_order (OSRelease si) _ _ (Hs1 _) (Hs2 _)).
  by rewrite (sort_entries_order (Configurations si) _ _ (Hc1 _) (Hc2 _)).
Qed.

(** The collector sees a world through the declared paths only. *)
Lemma collect_paths_agree W1 W2 cr paths configs tr :
  (∀ path t, path ∈ paths →
     ReadFile_at W1 t (full_path cr path) = ReadFile_at W2 t (full_path cr path)
     ∧ Stat_at W1 t (full_path cr path) = Stat_at W2 t (full_path cr path)) →
  for_range paths (collect_path W1 cr) configs tr
  = for_range paths (collect_path W2 cr) configs tr.
Proof.
  revert configs tr; induction paths as [|path paths IH]; intros configs tr Hsame;
    simpl; [done|].
  unfold bind.
  assert (E : collect_path W1 cr path configs tr
              = collect_path W2 cr path configs tr).
  { rewrite !collect_path_eq. cbv zeta.
    destruct (Hsame path (length tr)) as [-> _]; [by left|].
    by destruct (Hsame path (S (length tr))) as [_ ->]; [by left|]. }
  rewrite E. destruct (collect_path W2 cr path configs tr) as [configs1 tr1].
  apply IH. intros p t Hp. apply Hsame. by right.
Qed.

(** With files that do not change, the mapping the collector builds is
    the snapshot of every declared path that can be read. *)
Lemma collect_paths_static W cr paths (configs : gmap string ConfigFile) tr key :
  (∀ path t, path ∈ paths →
     ReadFile_at W t (full_path cr path) = ReadFile_at W 0 (full_path cr path)
     ∧ Stat_at W t (full_path cr path) = Stat_at W 0 (full_path cr path)) →
  (for_range paths (collect_path W cr) configs tr).1 !! key
  = if decide (key ∈ paths)
    then match snapshot_at W cr 0 key with
         | Some config => Some config
         | None => configs !! key
         end
    else configs !! key.
Proof.
  revert configs tr; induction paths as [|path paths IH]; intros configs tr Hstatic.
  - cbn [for_range]. unfold ret. cbn [fst].
    by destruct (decide (key ∈ [])) as [?%elem_of_nil|].
  - cbn [for_range]. unfold bind.
    pose proof (collect_path_eq W cr path configs tr) as E. cbv zeta in E.
    destruct (Hstatic path (length tr)) as [Hr _]; [by left|].
    destruct (Hstatic path (S (length tr))) as [_ Hs]; [by left|].
    rewrite Hr, Hs in E.
    destruct (collect_path W cr path configs tr) as [configs1 tr1].
    rewrite IH by (intros p t Hp; apply Hstatic; by right).
    assert (Hstep : ∀ k, configs1 !! k
              = if decide (k = path)
                then match snapshot_at W cr 0 path with
                     | Some config => Some config
                     | None => configs !! path
                     end
                else configs !! k).
    { intros k. unfold snapshot_at.
      destruct (ReadFile_at W 0 _) as [content [e|]].
      - injection E as -> _. by destruct (decide (k = path)) as [-> |].
      - destruct (Stat_at W 0 _) as [modTime [e|]]; injection E as -> _.
        + by destruct (decide (k = path)) as [-> |].
        + destruct (decide (k = path)) as [-> | Hne];
            [apply lookup_insert_eq | by apply lookup_insert_ne]. }
    rewrite (Hstep key).
    destruct (decide (key = path)) as [-> | Hne].
    + rewrite (decide_True (P := path ∈ path :: paths)) by (by left).
      destruct (decide (path ∈ paths)); [|done].
      by destruct (snapshot_at W cr 0 path).
    + destruct (decide (key ∈ paths)) as [Hin | Hnot].
      * by rewrite (decide_True (P := key ∈ path :: paths)) by (by right).
      * rewrite (decide_False (P := key ∈ path :: paths)); [done|].
        by intros [? | ?]%elem_of_cons.
Qed.

(** C9: the output of a run is a function of the descriptor file, of what
    the package query printed and of the declared files, and of nothing
    else.  Two runs that read the same descriptor, get the same answer
    from the package query and find the declared files unchanged (same
    content, same modification-time string, whenever they are read) return
    the same exit code and write the same bytes, although the two worlds
    may differ in every other file and command and the runtime may range
    over the maps in a different order in each run (the encoder sorts the
    keys).  When the descriptor and the query succeed, the bytes are the
    warnings followed by the JSON document of the snapshot made of the
    parsed descriptor, the parsed packages and, for every declared path,
    the snapshot of the file when it can be read. *)
Theorem run_output_is_reproducible (W1 W2 : World)
    (mapUnicodeLower : string → string) (encodeString : string → string)
    (it1 it2 : json.MapIteration) :
  json.valid_iteration it1 → json.valid_iteration it2 →
  let descriptor := ReadFile_at W1 0 "/etc/os-release" in
  let a := agent_of_descriptor mapUnicodeLower descriptor.1 in
  let query := Output_at W1 1 (query_command (pkgManager a)).1
                 (query_command (pkgManager a)).2 in
  let paths := declared_paths (packages_of_output query.1) in
  ReadFile_at W2 0 "/etc/os-release" = descriptor →
  Output_at W2 1 (query_command (pkgManager a)).1
    (query_command (pkgManager a)).2 = query →
  (∀ path t t', path ∈ paths →
     ReadFile_at W1 t (full_path (configReader a) path)
     = ReadFile_at W2 t' (full_path (configReader a) path)
     ∧ Stat_at W1 t (full_path (configReader a) path)
       = Stat_at W2 t' (full_path (configReader a) path)) →
  let run1 := main W1 mapUnicodeLower (json.MarshalIndent encodeString it1) [] in
  let run2 := main W2 mapUnicodeLower (json.MarshalIndent encodeString it2) [] in
  run1 = run2
  ∧ written Stdout run1.2 = written Stdout run2.2
  ∧ (descriptor.2 = None → query.2 = None →
     ∃ evs si,
       run1 = (0%Z,
               [EvReadFile "/etc/os-release";
                EvExec (query_command (pkgManager a)).1
                  (query_command (pkgManager a)).2]
               ++ evs
               ++ [EvWrite Stdout
                     ((json.MarshalIndent encodeString it1 si).1 +:+ NL)])
       ∧ Forall is_warning_write evs
       ∧ OSRelease si = osRelease_of_content descriptor.1
       ∧ Packages si = packages_of_output query.1
       ∧ ∀ key, Configurations si !! key
                = if decide (key ∈ paths)
                  then snapshot_at W1 (configReader a) 0 key
                  else None).
Proof.
  intros Hit1 Hit2 descriptor a query paths Hdesc Hquery Hfiles run1 run2.
  assert (Hsame : ∀ path t, path ∈ paths →
            ReadFile_at W1 t (full_path (configReader a) path)
            = ReadFile_at W2 t (full_path (configReader a) path)
            ∧ Stat_at W1 t (full_path (configReader a) path)
              = Stat_at W2 t (full_path (configReader a) path)).
  { intros path t Hp. by apply Hfiles. }
  assert (Hstatic : ∀ path t, path ∈ paths →
            ReadFile_at W1 t (full_path (configReader a) path)
            = ReadFile_at W1 0 (full_path (configReader a) path)
            ∧ Stat_at W1 t (full_path (configReader a) path)
              = Stat_at W1 0 (full_path (configReader a) path)).
  { intros path t Hp.
    destruct (Hfiles path t 0 Hp) as [-> ->].
    by destruct (Hfiles path 0 0 Hp) as [-> ->]. }
  assert (E : run1 = run2).
  { subst run1 run2. rewrite !main_eq, Hdesc. fold descriptor.
    destruct descriptor as [content [e|]] eqn:Hd; [done|].
    cbv zeta. rewrite !GatherSystemInfo_eq. cbv zeta. simpl length.
    simpl in a. fold a. rewrite Hquery. fold query.
    destruct query as [output [e|]] eqn:Hq; [done|].
    simpl in paths. cbn [fst snd].
    rewrite (collect_paths_agree W1 W2 (configReader a) paths) by exact Hsame.
    by rewrite (MarshalIndent_order encodeString it1 it2). }
  split; [done|]. split; [by rewrite E|].
  intros Hdok Hqok. subst run1. rewrite main_eq. fold descriptor.
  destruct descriptor as [content [e|]] eqn:Hd; [done|].
  cbv zeta. rewrite GatherSystemInfo_eq. cbv zeta. simpl length.
  simpl in a. fold a. fold query.
  destruct query as [output [e|]] eqn:Hq; [done|].
  simpl in paths. cbn [fst snd].
  destruct (collect_paths_trace W1 (configReader a) paths ∅
              (descriptor_read ++ [EvExec (query_command (pkgManager a)).1
                                     (query_command (pkgManager a)).2]))
    as (evs & Etr & Hevs).
  fold paths. rewrite Etr. cbn [json.MarshalIndent fst snd].
  eexists evs, _. split; [by rewrite <- !(assoc_L (++))|].
  split; [done|]. split; [done|]. split; [done|].
  intros key. cbn [systemInfo set_systemInfo Configurations].
  rewrite (collect_paths_static W1 (configReader a) paths ∅ _ key Hstatic).
  rewrite lookup_empty. destruct (decide (key ∈ paths)); [|done].
  by destruct (snapshot_at W1 (configReader a) 0 key).
Qed.

Lemma run_output_is_reproducible_witness :
  main Demo.world id (json.MarshalIndent Demo3.encode_plain Demo3.forwards) []
  = main Demo3.world_elsewhere id
      (json.MarshalIndent Demo3.encode_plain Demo3.backwards) [].
Proof.
  refine (proj1 (run_output_is_reproducible Demo.world Demo3.world_elsewhere id
                   Demo3.encode_plain Demo3.forwards Demo3.backwards
                   _ _ _ _ _)).
  - split; intros m; reflexivity.
  - split; intros m; apply reverse_Permutation.
  - reflexivity.
  - reflexivity.
  - intros path t t' Hpath.
    apply list_elem_of_In in Hpath. vm_compute in Hpath.
    destruct Hpath as [<- | [<- | []]]; split; reflexivity.
Defined.

(** The document of the demo run, as [MarshalIndent] lays it out (with the
    plain encoder, which writes apostrophes for the double quotes). *)
Example MarshalIndent_layout :
  (json.MarshalIndent Demo3.encode_plain Demo3.backwards
     (systemInfo (GatherSystemInfo Demo.world Demo.agent descriptor_read).1.1)).1
  = "{
  'OSRelease': {
    'ID': 'ubuntu',
    'VERSION_ID': '22.04'
  },
  'Packages': [
    {
      'Name': 'a',
      'Version': '1.0',
      'ConfigFiles': [
        '/etc/a.conf'
      ],
      'RequiredPackages': null
    },
    {
      'Name': 'b',
      'Version': '2.0',
      'ConfigFiles': [
        '/etc/missing.conf'
      ],
      'RequiredPackages': null
    }
  ],
  'Configurations': {
    '/etc/a.conf': {
      'Path': '/etc/a.conf',
      'Content': 'X',
      'Modified': '2024-01-01 00:00:00 +0000 UTC'
    }
  }
}"
  ∧ (json.MarshalIndent Demo3.encode_plain Demo3.forwards
       {| OSRelease := ∅; Packages := []; Configurations := ∅ |}).1
    = "{
  'OSRelease': {},
  'Packages': null,
  'Configurations': {}
}".
Proof. split; vm_compute; reflexivity. Qed.

(** ** An empty third field *)

(** C10: a line of the package query with exactly three tab-separated
    fields, the third one empty, gives a record whose declared paths are
    the one-element list holding the empty string; the collector then reads
    the empty path, which the reader of the agent (root directory "/")
    joins to "/". *)
Theorem empty_third_field_reads_root (W : World) (a : Agent) (tr : list Event)
    (output line name version : string) :
  Output_at W (length tr) (query_command (pkgManager a)).1
    (query_command (pkgManager a)).2 = (output, None) →
  rootDir (configReader a) = "/" →
  line ∈ strings.Split output NL →
  strings.Split line TAB = [name; version; ""] →
  let run := GatherSystemInfo W a tr in
  {| Name := name; Version := version; ConfigFiles := [""];
     RequiredPackages := [] |} ∈ Packages (systemInfo run.1.1)
  ∧ full_path (configReader a) "" = "/"
  ∧ ∃ evs, run.2 = tr ++ evs ∧ EvReadFile "/" ∈ evs.
Proof.
  intros Hout Hroot Hline Hfields run. subst run.
  rewrite GatherSystemInfo_eq. cbv zeta. rewrite Hout. simpl.
  set (pkg := {| Name := name; Version := version; ConfigFiles := [""];
                 RequiredPackages := [] |}).
  assert (Hpkg : pkg ∈ packages_of_output output).
  { rewrite packages_of_output_records. unfold records_of_output.
    apply list_elem_of_join. exists [pkg]. split; [by left|].
    apply list_elem_of_fmap. exists line. split.
    - unfold record_of_line. by rewrite Hfields.
    - apply list_elem_of_filter. split; [|done].
      intros ->. discriminate Hfields. }
  assert (Hfull : full_path (configReader a) "" = "/").
  { unfold full_path. by rewrite Hroot. }
  split; [done|]. split; [done|].
  assert (Hdecl : "" ∈ declared_paths (packages_of_output output)).
  { unfold declared_paths. apply list_elem_of_join. exists [""].
    split; [by left|]. apply list_elem_of_fmap. by exists pkg. }
  destruct (collect_paths_reads W (configReader a) _ ∅
              (tr ++ [EvExec (query_command (pkgManager a)).1
                        (query_command (pkgManager a)).2]) "" Hdecl)
    as (evs & -> & Hin).
  rewrite Hfull in Hin.
  eexists (_ :: evs). split; [by rewrite <- (assoc_L (++))|]. by right.
Qed.

Lemma empty_third_field_reads_root_witness :
  {| Name := "name"; Version := "version"; ConfigFiles := [""];
     RequiredPackages := [] |}
  ∈ Packages
      (systemInfo
         (GatherSystemInfo Demo.world_empty_field Demo.agent descriptor_read).1.1).
Proof.
  refine (proj1 (empty_third_field_reads_root Demo.world_empty_field Demo.agent
            descriptor_read ("name" +:+ TAB +:+ "version" +:+ TAB +:+ NL)
            ("name" +:+ TAB +:+ "version" +:+ TAB) "name" "version" _ _ _ _)).
  - reflexivity.
  - reflexivity.
  - apply list_elem_of_In. vm_compute. tauto.
  - reflexivity.
Defined.

(** ** The descriptor file *)

Lemma TrimRight_clean q w :
  ¬ has_byte q w → strings.TrimRight w (String q "") = w.
Proof.
  induction w as [|c w IH]; simpl; [done|].
  rewrite has_byte_cons. intros H. rewrite IH by tauto.
  destruct w; [|done]. rewrite decide_False; [done|]. intros ->; tauto.
Qed.

Lemma TrimRight_app_byte q s :
  strings.TrimRight (s +:+ String q "") (String q "") = strings.TrimRight s (String q "").
Proof.
  induction s as [|c s IH]; simpl; [by rewrite decide_True|]. by rewrite IH.
Qed.

Lemma TrimLeft_clean q w :
  ¬ has_byte q w → strings.TrimLeft w (String q "") = w.
Proof.
  destruct w as [|c w]; simpl; [done|].
  rewrite has_byte_cons. intros H. rewrite decide_False; [done|]. intros ->; tauto.
Qed.

Lemma Trim_clean q w : ¬ has_byte q w → strings.Trim w (String q "") = w.
Proof.
  intros H. unfold strings.Trim. rewrite TrimRight_clean by done.
  by apply TrimLeft_clean.
Qed.

Lemma Trim_quoted q w :
  ¬ has_byte q w →
  strings.Trim (String q "" +:+ w +:+ String q "") (String q "") = w.
Proof.
  intros H. unfold strings.Trim.
  rewrite <- append_assoc, TrimRight_app_byte. simpl.
  rewrite TrimRight_clean by done.
  destruct w as [|c w]; simpl.
  - by rewrite !decide_True.
  - rewrite decide_True by done. apply (TrimLeft_clean q (String c w) H).
Qed.

Lemma descriptor_step_pair m k v :
  ¬ has_byte "="%char k →
  descriptor_step m (k +:+ "=" +:+ v)
  = <[strings.Trim k QUOTE := strings.Trim v QUOTE]> m.
Proof.
  intros H. unfold descriptor_step.
  change (k +:+ "=" +:+ v) with (k +:+ String "="%char v).
  by rewrite (SplitN_2_byte_first "="%char k v H).
Qed.

Lemma descriptor_steps_other (lines : list string) (m : gmap string string) key :
  (∀ l k' v', l ∈ lines → l = k' +:+ "=" +:+ v' → ¬ has_byte "="%char k' →
              strings.Trim k' QUOTE ≠ key) →
  foldl descriptor_step m lines !! key = m !! key.
Proof.
  revert m; induction lines as [|l lines IH]; intros m Hother; simpl; [done|].
  rewrite IH by (intros l' k' v' Hl'; apply Hother; by right).
  unfold descriptor_step.
  destruct (strings.SplitN l "=" 2) as [|a [|b [|c rest]]] eqn:E; try done.
  simpl. apply SplitN_2_byte_inv in E as [-> Ha].
  apply lookup_insert_ne.
  apply (Hother (a +:+ String "="%char b) a b); [by left|done|done].
Qed.

(** C5: the descriptor is parsed line by line; a line without "=" adds
    nothing; a line [k=v] (split at its first "=") stores the value with
    its surrounding quote characters trimmed under the key trimmed the same
    way.  So when the content is a sequence of newline-separated lines and
    exactly one of them has a given key, looking the key up gives the
    trimmed value of that line; trimming removes one pair of quotes around
    a value without quotes inside and leaves a bare value alone. *)
Theorem descriptor_lookup (W : World) (tr : list Event) (content : string)
    (pre post : list string) (k v : string) :
  ReadFile_at W (length tr) "/etc/os-release" = (content, None) →
  content = strings.Join (pre ++ (k +:+ "=" +:+ v) :: post) NL →
  Forall (λ l, ¬ has_byte "010"%char l) (pre ++ (k +:+ "=" +:+ v) :: post) →
  ¬ has_byte "="%char k →
  (∀ l k' v', l ∈ pre ++ post → l = k' +:+ "=" +:+ v' →
              ¬ has_byte "="%char k' →
              strings.Trim k' QUOTE ≠ strings.Trim k QUOTE) →
  (∃ d, (NewOSDetector W tr).1 = Ok d
        ∧ osRelease d !! strings.Trim k QUOTE = Some (strings.Trim v QUOTE))
  ∧ (∀ w, ¬ has_byte "034"%char w →
          strings.Trim (QUOTE +:+ w +:+ QUOTE) QUOTE = w
          ∧ strings.Trim w QUOTE = w).
Proof.
  intros Hread -> Hlines Hk Hothers. split.
  - unfold NewOSDetector, bind, ioutil_ReadFile, ret. rewrite Hread.
    eexists. split; [done|]. simpl. unfold osRelease_of_content.
    rewrite (Split_Join_byte "010"%char).
    + rewrite foldl_app. cbn [foldl].
      rewrite descriptor_steps_other.
      * change (k +:+ String "="%char v) with (k +:+ "=" +:+ v).
        rewrite descriptor_step_pair by done. apply lookup_insert_eq.
      * intros l k' v' Hl. apply Hothers. apply elem_of_app. by right.
    + by destruct pre.
    + intros l Hl. by apply (proj1 (Forall_forall _ _) Hlines).
  - intros w Hw. split; [by apply Trim_quoted | by apply Trim_clean].
Qed.

Lemma descriptor_lookup_witness :
  ∃ d, (NewOSDetector Demo.world []).1 = Ok d
       ∧ osRelease d !! "ID" = Some "ubuntu".
Proof.
  refine (proj1 (descriptor_lookup Demo.world [] Demo.os_release []
            ["VERSION_ID=" +:+ QUOTE +:+ "22.04" +:+ QUOTE; ""]
            "ID" (QUOTE +:+ "ubuntu" +:+ QUOTE) _ _ _ _ _)).
  - reflexivity.
  - reflexivity.
  - apply (bool_decide_unpack _). vm_compute. exact I.
  - apply (bool_decide_unpack _). vm_compute. exact I.
  - intros l k' v' Hl Heq Hk'.
    pose proof (SplitN_2_byte_first "="%char k' v' Hk') as E.
    change (k' +:+ String "="%char v') with (k' +:+ "=" +:+ v') in E.
    rewrite <- Heq in E.
    apply list_elem_of_In in Hl. simpl in Hl.
    destruct Hl as [<- | [<- | []]]; vm_compute in E; [|discriminate E].
    injection E as <- <-. vm_compute. discriminate.
Defined.

(** ** End to end *)

(** The descriptor says ID="ubuntu", the Debian-style query is chosen and
    prints two packages; the file of the first exists with content "X",
    the file of the second is missing: the snapshot has exactly one
    configuration, for the existing path. *)
Example end_to_end_ubuntu :
  pkgType (pkgManager Demo.agent) = "apt"
  ∧ (main Demo.world id Demo.marshal []).1 = 0%Z
  ∧ map_to_list
      (Configurations
         (systemInfo (GatherSystemInfo Demo.world Demo.agent descriptor_read).1.1))
    = [("/etc/a.conf",
        {| Path := "/etc/a.conf"; Content := "X";
           Modified := "2024-01-01 00:00:00 +0000 UTC" |})].
Proof. repeat split; vm_compute; reflexivity. Qed.

(** ** More facts about splitting and trimming *)

Section split_facts.
Import strings.

(** A string either lacks the byte [c] or has a first instance of it. *)
Lemma byte_cases c s :
  ¬ has_byte c s ∨ ∃ a b, s = a +:+ String c b ∧ ¬ has_byte c a.
Proof.
  induction s as [|d s IH].
  - left. apply has_byte_nil.
  - destruct (decide (c = d)) as [<- | Hne].
    + right. exists "", s. split; [done | apply has_byte_nil].
    + destruct IH as [Hno | (a & b & -> & Ha)].
      * left. rewrite has_byte_cons. tauto.
      * right. exists (String d a), b. split; [done|].
        rewrite has_byte_cons. tauto.
Qed.

(** Induction on the fields of a string split on a byte. *)
Lemma Split_byte_ind c (P : string → list string → Prop) :
  (∀ s, ¬ has_byte c s → P s [s]) →
  (∀ a b, ¬ has_byte c a → P b (Split b (String c "")) →
          P (a +:+ String c b) (a :: Split b (String c ""))) →
  ∀ s, P s (Split s (String c "")).
Proof.
  intros Hlast Hcut s.
  remember (len s) as n eqn:Hn. revert s Hn.
  induction (lt_wf n) as [n _ IH]. intros s ->.
  assert (Hind : ∀ s', len s' < len s → P s' (Split s' (String c ""))).
  { intros s' Hlt. by apply (IH (len s')). }
  clear IH.
  destruct (byte_cases c s) as [Hno | (a & b & -> & Ha)].
  - rewrite Split_byte_absent by done. by apply Hlast.
  - rewrite Split_byte_first by done. apply Hcut; [done|].
    apply Hind. rewrite len_app. simpl. lia.
Qed.

Lemma Split_byte_nonempty c s : Split s (String c "") ≠ [].
Proof. by apply (Split_byte_ind c (λ _ fields, fields ≠ [])). Qed.

(** No field contains the separator. *)
Lemma Split_byte_fields c s :
  Forall (λ field, ¬ has_byte c field) (Split s (String c "")).
Proof.
  apply (Split_byte_ind c (λ _ fields, Forall (λ f, ¬ has_byte c f) fields)).
  - intros s0 H. by constructor.
  - intros a b Ha IH. by constructor.
Qed.

(** The bytes of a field are bytes of the string. *)
Lemma Split_byte_sub c s d :
  Forall (λ field, has_byte d field → has_byte d s) (Split s (String c "")).
Proof.
  apply (Split_byte_ind c
           (λ s fields, Forall (λ f, has_byte d f → has_byte d s) fields)).
  - intros s0 H. by constructor.
  - intros a b Ha IH. constructor.
    + rewrite has_byte_app. tauto.
    + eapply Forall_impl; [exact IH|]. simpl. intros f Hf Hd.
      rewrite has_byte_app, has_byte_cons. tauto.
Qed.

(** Joining the fields with the separator gives the string back. *)
Lemma Join_Split_byte c s : Join (Split s (String c "")) (String c "") = s.
Proof.
  apply (Split_byte_ind c (λ s fields, Join fields (String c "") = s)).
  - done.
  - intros a b Ha IH.
    destruct (Split b (String c "")) as [|f fields] eqn:E.
    + by apply Split_byte_nonempty in E.
    + change (Join (a :: f :: fields) (String c ""))
        with (a +:+ String c (Join (f :: fields) (String c ""))).
      by rewrite IH.
Qed.

(** Splitting distributes over a separator. *)
Lemma Split_byte_app c a b :
  Split (a +:+ String c b) (String c "")
  = Split a (String c "") ++ Split b (String c "").
Proof.
  remember (len a) as n eqn:Hn. revert a Hn.
  induction (lt_wf n) as [n _ IH]. intros a ->.
  destruct (byte_cases c a) as [Hno | (a1 & a2 & -> & Ha1)].
  - rewrite Split_byte_first by done.
    by rewrite (Split_byte_absent c a) by done.
  - rewrite append_assoc. simpl.
    rewrite (Split_byte_first c a1 (a2 +:+ String c b)) by done.
    rewrite (Split_byte_first c a1 a2) by done. simpl. f_equal.
    apply (IH (len a2)); [|done]. rewrite len_app. simpl. lia.
Qed.

Lemma has_byte_Join d (elems : list string) sep :
  has_byte d (Join elems sep) →
  has_byte d sep ∨ ∃ e, e ∈ elems ∧ has_byte d e.
Proof.
  induction elems as [|e elems IH]; [by intros []%has_byte_nil|].
  destruct elems as [|e' elems].
  - simpl. intros H. right. exists e. split; [by left|done].
  - change (Join (e :: e' :: elems) sep)
      with (e +:+ sep +:+ Join (e' :: elems) sep).
    rewrite !has_byte_app. intros [H | [H | H]].
    + right. exists e. split; [by left|done].
    + by left.
    + destruct (IH H) as [? | (x & Hx & Hd)]; [by left|].
      right. exists x. split; [by right|done].
Qed.

(** Trimming only removes bytes. *)
Lemma TrimLeft_sub d s cutset : has_byte d (TrimLeft s cutset) → has_byte d s.
Proof.
  induction s as [|c s IH]; simpl; [done|].
  destruct (IndexByte_in c cutset); [|done].
  rewrite has_byte_cons. auto.
Qed.

Lemma TrimRight_sub d s cutset : has_byte d (TrimRight s cutset) → has_byte d s.
Proof.
  induction s as [|c s IH]; simpl; [done|].
  destruct (TrimRight s cutset) as [|c' r] eqn:E.
  - destruct (IndexByte_in c cutset); [by intros []%has_byte_nil|].
    rewrite !has_byte_cons. intros [-> | []%has_byte_nil]. by left.
  - rewrite !has_byte_cons. intros [-> | H]; [by left|].
    right. apply IH. by rewrite has_byte_cons.
Qed.

Lemma Trim_sub d s cutset : has_byte d (Trim s cutset) → has_byte d s.
Proof.
  intros H. apply (TrimRight_sub d s cutset).
  by apply (TrimLeft_sub d _ cutset).
Qed.

(** The trimmed string does not start and does not end with the byte. *)
Lemma TrimRight_last q s : last_byte (TrimRight s (String q "")) ≠ Some q.
Proof.
  induction s as [|c s IH]; simpl; [done|].
  destruct (TrimRight s (String q "")) as [|c' r] eqn:E.
  - case_decide; simpl; [done|]. congruence.
  - done.
Qed.

Lemma TrimLeft_first q s : first_byte (TrimLeft s (String q "")) ≠ Some q.
Proof.
  induction s as [|c s IH]; simpl; [done|].
  case_decide; [done|]. simpl. congruence.
Qed.

Lemma TrimLeft_last s cutset :
  TrimLeft s cutset = "" ∨ last_byte (TrimLeft s cutset) = last_byte s.
Proof.
  induction s as [|c s IH]; simpl; [by left|].
  destruct (IndexByte_in c cutset); [|by right].
  destruct IH as [-> | ->]; [by left|].
  destruct s; [by left | by right].
Qed.

Lemma Trim_bare q s : bare q (Trim s (String q "")).
Proof.
  unfold Trim, bare. split; [apply TrimLeft_first|].
  destruct (TrimLeft_last (TrimRight s (String q "")) (String q ""))
    as [-> | ->]; [done | apply TrimRight_last].
Qed.

End split_facts.

(** ** The descriptor file, beyond the claims *)

(** A round of the descriptor loop skips a line without "=" and stores the
    trimmed pair of a line cut at its first "=". *)
Lemma descriptor_step_cases (m : gmap string string) line :
  (¬ has_byte "="%char line ∧ descriptor_step m line = m)
  ∨ ∃ k v, line = k +:+ "=" +:+ v ∧ ¬ has_byte "="%char k
           ∧ descriptor_step m line
             = <[strings.Trim k QUOTE := strings.Trim v QUOTE]> m.
Proof.
  destruct (byte_cases "="%char line) as [Hno | (k & v & -> & Hk)].
  - left. split; [done|]. unfold descriptor_step.
    by rewrite (SplitN_2_byte_absent "="%char line Hno).
  - right. exists k, v. split; [done|]. split; [done|].
    by apply descriptor_step_pair.
Qed.

Lemma descriptor_entries_origin (lines : list string) (m : gmap string string)
    key value :
  foldl descriptor_step m lines !! key = Some value →
  m !! key = Some value
  ∨ ∃ line k v, line ∈ lines ∧ line = k +:+ "=" +:+ v
                ∧ ¬ has_byte "="%char k
                ∧ key = strings.Trim k QUOTE ∧ value = strings.Trim v QUOTE.
Proof.
  revert m; induction lines as [|line lines IH]; intros m; simpl; [by left|].
  intros [Hm | (l & k & v & Hl & Hrest)]%IH.
  - destruct (descriptor_step_cases m line) as [[_ E] | (k & v & -> & Hk & E)];
      rewrite E in Hm; [by left|].
    destruct (decide (strings.Trim k QUOTE = key)) as [<- | Hne].
    + rewrite lookup_insert_eq in Hm. injection Hm as <-.
      right. exists (k +:+ "=" +:+ v), k, v. repeat split; try done. by left.
    + rewrite lookup_insert_ne in Hm by done. by left.
  - right. exists l, k, v. split; [by right|done].
Qed.

Lemma NewOSDetector_eq W tr :
  NewOSDetector W tr =
    match ReadFile_at W (length tr) "/etc/os-release" with
    | (_, Some e) =>
        (Error ("failed to read os-release: " +:+ e),
         tr ++ [EvReadFile "/etc/os-release"])
    | (content, None) =>
        (Ok {| osRelease := osRelease_of_content content |},
         tr ++ [EvReadFile "/etc/os-release"])
    end.
Proof.
  unfold NewOSDetector, bind, ioutil_ReadFile, ret.
  by destruct (ReadFile_at W (length tr) _) as [content [e|]].
Qed.

(** X1: every entry of the descriptor mapping comes from a line of the
    file: the key and the value are the trimmed halves of a line cut at its
    first "=".  So no key and no value starts or ends with a double quote,
    no key contains "=" or a newline, and no value contains a newline. *)
Theorem descriptor_entries_sound (W : World) (tr : list Event)
    (d : OSDetector) (key value : string) :
  (NewOSDetector W tr).1 = Ok d →
  osRelease d !! key = Some value →
  (∃ line k v,
     line ∈ strings.Split (ReadFile_at W (length tr) "/etc/os-release").1 NL
     ∧ line = k +:+ "=" +:+ v ∧ ¬ has_byte "="%char k
     ∧ key = strings.Trim k QUOTE ∧ value = strings.Trim v QUOTE)
  ∧ bare "034"%char key ∧ bare "034"%char value
  ∧ ¬ has_byte "="%char key
  ∧ ¬ has_byte "010"%char key ∧ ¬ has_byte "010"%char value.
Proof.
  rewrite NewOSDetector_eq.
  destruct (ReadFile_at W (length tr) _) as [content [e|]]; [done|].
  simpl. intros [= <-]. simpl. unfold osRelease_of_content.
  intros [Hm | (line & k & v & Hline & -> & Hk & -> & ->)]%descriptor_entries_origin;
    [by rewrite lookup_empty in Hm|].
  assert (Hnl : ¬ has_byte "010"%char (k +:+ "=" +:+ v)).
  { by apply (proj1 (Forall_forall _ _) (Split_byte_fields "010"%char content)). }
  rewrite !has_byte_app in Hnl.
  split; [by exists (k +:+ "=" +:+ v), k, v|].
  split; [apply Trim_bare|]. split; [apply Trim_bare|].
  split; [by intros ?%Trim_sub|].
  split; intros ?%Trim_sub; tauto.
Qed.

Lemma descriptor_entries_sound_witness :
  ∃ line k v,
    line ∈ strings.Split Demo.os_release NL
    ∧ line = k +:+ "=" +:+ v ∧ ¬ has_byte "="%char k
    ∧ "ID" = strings.Trim k QUOTE ∧ "ubuntu" = strings.Trim v QUOTE.
Proof.
  refine (proj1 (descriptor_entries_sound Demo.world []
            {| osRelease := osRelease_of_content Demo.os_release |}
            "ID" "ubuntu" _ _)); reflexivity.
Defined.

(** X2: a key that no line of the descriptor assigns is absent from the
    mapping; when the missing key is ID, the agent is built for the empty
    ID and its package manager is the Debian-style one (dpkg-query). *)
Theorem descriptor_missing_key (W : World) (mapUnicodeLower : string → string)
    (tr : list Event) (content key : string) :
  ReadFile_at W (length tr) "/etc/os-release" = (content, None) →
  (∀ line k v, line ∈ strings.Split content NL → line = k +:+ "=" +:+ v →
               ¬ has_byte "="%char k → strings.Trim k QUOTE ≠ key) →
  ∃ a, (NewAgent W mapUnicodeLower tr).1 = Ok a
       ∧ osRelease (osDetector a) !! key = None
       ∧ (key = "ID" →
          pkgManager a = {| pkgType := "apt" |}
          ∧ (query_command (pkgManager a)).1 = "dpkg-query").
Proof.
  intros Hread Hlines.
  unfold NewAgent, bind. rewrite NewOSDetector_eq, Hread. unfold ret.
  eexists. split; [done|]. simpl.
  assert (E : osRelease_of_content content !! key = None).
  { unfold osRelease_of_content. rewrite descriptor_steps_other; [done|].
    intros l k v Hl. by apply Hlines. }
  split; [done|]. intros ->. by rewrite E.
Qed.

Lemma descriptor_missing_key_witness :
  ∃ a, (NewAgent Demo2.world_anonymous id []).1 = Ok a
       ∧ osRelease (osDetector a) !! "ID" = None.
Proof.
  destruct (descriptor_missing_key Demo2.world_anonymous id []
              Demo2.os_release_anonymous "ID" eq_refl) as (a & Ha & Hid & _).
  - intros line k v Hl Heq Hk.
    pose proof (SplitN_2_byte_first "="%char k v Hk) as E.
    change (k +:+ String "="%char v) with (k +:+ "=" +:+ v) in E.
    rewrite <- Heq in E.
    apply list_elem_of_In in Hl. vm_compute in Hl.
    destruct Hl as [<- | [<- | []]]; vm_compute in E; [|discriminate E].
    injection E as <- <-. vm_compute. discriminate.
  - by exists a.
Defined.

Lemma descriptor_lookup_last content (pre post : list string) k v :
  strings.Split content NL = pre ++ (k +:+ "=" +:+ v) :: post →
  ¬ has_byte "="%char k →
  (∀ line k' v', line ∈ post → line = k' +:+ "=" +:+ v' →
                 ¬ has_byte "="%char k' →
                 strings.Trim k' QUOTE ≠ strings.Trim k QUOTE) →
  osRelease_of_content content !! strings.Trim k QUOTE
  = Some (strings.Trim v QUOTE).
Proof.
  intros Hsplit Hk Hpost. unfold osRelease_of_content.
  rewrite Hsplit, foldl_app. cbn [foldl].
  rewrite descriptor_steps_other by done.
  rewrite descriptor_step_pair by done. apply lookup_insert_eq.
Qed.

(** X3: when several lines assign the same key, the last one wins: the
    lines before it do not matter. *)
Theorem descriptor_last_assignment_wins (W : World) (tr : list Event)
    (content : string) (pre post : list string) (k v : string) :
  ReadFile_at W (length tr) "/etc/os-release" = (content, None) →
  strings.Split content NL = pre ++ (k +:+ "=" +:+ v) :: post →
  ¬ has_byte "="%char k →
  (∀ line k' v', line ∈ post → line = k' +:+ "=" +:+ v' →
                 ¬ has_byte "="%char k' →
                 strings.Trim k' QUOTE ≠ strings.Trim k QUOTE) →
  ∃ d, (NewOSDetector W tr).1 = Ok d
       ∧ osRelease d !! strings.Trim k QUOTE = Some (strings.Trim v QUOTE).
Proof.
  intros Hread Hsplit Hk Hpost. rewrite NewOSDetector_eq, Hread.
  eexists. split; [done|]. simpl. by apply (descriptor_lookup_last _ pre post).
Qed.

Lemma descriptor_last_assignment_wins_witness :
  ∃ d, (NewOSDetector Demo2.world_rhel []).1 = Ok d
       ∧ osRelease d !! "ID" = Some "RHEL".
Proof.
  refine (descriptor_last_assignment_wins Demo2.world_rhel []
            Demo2.os_release_rhel
            ["# release"; "ID=centos";
             "NAME=" +:+ QUOTE +:+ "Red Hat" +:+ QUOTE; ""]
            [""] "ID" (QUOTE +:+ "RHEL" +:+ QUOTE) _ _ _ _).
  - reflexivity.
  - reflexivity.
  - apply (bool_decide_unpack _). vm_compute. exact I.
  - intros line k' v' Hl Heq Hk'.
    apply list_elem_of_In in Hl. simpl in Hl. destruct Hl as [<- | []].
    by destruct k'.
Defined.

(** ** The trace of the collector *)

Lemma collect_path_block W cr path configs tr :
  ∃ block, (collect_path W cr path configs tr).2 = tr ++ block
           ∧ attempt_block cr path block.
Proof.
  rewrite collect_path_eq. cbv zeta. unfold attempt_block.
  destruct (ReadFile_at W (length tr) _) as [content [e|]].
  - eexists. split; [done|]. right. left. by eexists.
  - destruct (Stat_at W (S (length tr)) _) as [modTime [e|]].
    + eexists. split; [done|]. right. right. by eexists.
    + eexists. split; [done|]. by left.
Qed.

Lemma collect_paths_blocks W cr paths configs tr :
  ∃ blocks, (for_range paths (collect_path W cr) configs tr).2
            = tr ++ mjoin blocks
            ∧ Forall2 (attempt_block cr) paths blocks.
Proof.
  revert configs tr; induction paths as [|path paths IH]; intros configs tr.
  - exists []. simpl. by rewrite app_nil_r.
  - simpl. unfold bind.
    destruct (collect_path_block W cr path configs tr) as (block & E & Hblock).
    destruct (collect_path W cr path configs tr) as [configs1 tr1].
    simpl in E. subst tr1.
    destruct (IH configs1 (tr ++ block)) as (blocks & -> & Hblocks).
    exists (block :: blocks). simpl.
    split; [by rewrite (assoc_L (++))|]. by constructor.
Qed.

Lemma attempt_blocks_no_exec cr paths blocks :
  Forall2 (attempt_block cr) paths blocks →
  Forall (λ ev, is_exec ev = false) (mjoin blocks).
Proof.
  induction 1 as [|path block paths blocks Hblock _ IH]; simpl; [done|].
  apply Forall_app. split; [|done].
  destruct Hblock as [-> | [[err ->] | [err ->]]]; by repeat constructor.
Qed.

Lemma attempt_blocks_stdout_only cr paths blocks :
  Forall2 (attempt_block cr) paths blocks →
  written Stderr (mjoin blocks) = "".
Proof.
  induction 1 as [|path block paths blocks Hblock _ IH]; simpl; [done|].
  rewrite written_app, IH.
  by destruct Hblock as [-> | [[err ->] | [err ->]]].
Qed.

(** The trace of a run whose descriptor was read: the read, the package
    query, then the rounds of the collector (none when the query failed),
    then one line on standard output. *)
Lemma main_trace W mapUnicodeLower MarshalIndent content :
  ReadFile_at W 0 "/etc/os-release" = (content, None) →
  let a := agent_of_descriptor mapUnicodeLower content in
  ∃ blocks line,
    (main W mapUnicodeLower MarshalIndent []).2
    = [EvReadFile "/etc/os-release";
       EvExec (query_command (pkgManager a)).1 (query_command (pkgManager a)).2]
      ++ mjoin blocks ++ [EvWrite Stdout (line +:+ NL)]
    ∧ ∃ paths, Forall2 (attempt_block (configReader a)) paths blocks.
Proof.
  intros Hread a. rewrite main_eq, Hread. cbv zeta.
  rewrite GatherSystemInfo_eq. cbv zeta. fold a. simpl length.
  destruct (Output_at W 1 _ _) as [output [e|]]; cbn [fst snd].
  - exists [], ("Failed to gather system info: "
                +:+ ("failed to query packages: " +:+ e)).
    split; [|by exists []]. by rewrite append_assoc.
  - destruct (collect_paths_blocks W (configReader a)
                (declared_paths (packages_of_output output)) ∅
                (descriptor_read ++ [EvExec (query_command (pkgManager a)).1
                                       (query_command (pkgManager a)).2]))
      as (blocks & -> & Hblocks).
    destruct (MarshalIndent _) as [jsonData [e|]]; cbn [fst snd].
    + exists blocks, ("Failed to marshal system info: " +:+ e).
      split; [|by eexists]. by rewrite <- !(assoc_L (++)).
    + exists blocks, jsonData.
      split; [|by eexists]. by rewrite <- !(assoc_L (++)).
Qed.

(** ** The run as a whole *)

Lemma filter_no_exec (evs : list Event) :
  Forall (λ ev, is_exec ev = false) evs → filter (λ ev, is_exec ev) evs = [].
Proof.
  induction 1 as [|ev evs Hev _ IH]; [done|].
  rewrite filter_cons_False; [done|]. rewrite Hev. by intros [].
Qed.

(** X4: when the descriptor file cannot be read, no agent is built: the
    run prints the failure and exits with code 1; it runs no package query
    and reads no other file. *)
Theorem descriptor_failure_is_fatal (W : World)
    (mapUnicodeLower : string → string)
    (MarshalIndent : SystemInfo → string * option error)
    (data : string) (e : error) :
  ReadFile_at W 0 "/etc/os-release" = (data, Some e) →
  (NewAgent W mapUnicodeLower []).1 = Error ("failed to read os-release: " +:+ e)
  ∧ main W mapUnicodeLower MarshalIndent []
    = (1%Z,
       [EvReadFile "/etc/os-release";
        EvWrite Stdout
          ("Failed to initialize agent: "
           +:+ ("failed to read os-release: " +:+ e) +:+ NL)]).
Proof.
  intros Hread. split.
  - unfold NewAgent, bind. rewrite NewOSDetector_eq. simpl. by rewrite Hread.
  - by rewrite main_eq, Hread.
Qed.

Lemma descriptor_failure_is_fatal_witness :
  (main Demo2.world_no_descriptor id Demo.marshal []).1 = 1%Z.
Proof.
  rewrite (proj2 (descriptor_failure_is_fatal Demo2.world_no_descriptor id
                    Demo.marshal ""
                    "open /etc/os-release: no such file or directory" eq_refl)).
  reflexivity.
Defined.

(** X5: the command the run executes follows the last ID line of the
    descriptor: when the trimmed value, lower-cased, contains "rhel",
    "centos" or "fedora", the second event of the run is the rpm query,
    otherwise it is the dpkg-query query. *)
Theorem backend_follows_descriptor_ID (W : World)
    (mapUnicodeLower : string → string)
    (MarshalIndent : SystemInfo → string * option error)
    (content : string) (pre post : list string) (v : string) :
  ReadFile_at W 0 "/etc/os-release" = (content, None) →
  strings.Split content NL = pre ++ ("ID" +:+ "=" +:+ v) :: post →
  (∀ line k' v', line ∈ post → line = k' +:+ "=" +:+ v' →
                 ¬ has_byte "="%char k' → strings.Trim k' QUOTE ≠ "ID") →
  let osID := strings.Trim v QUOTE in
  (contains_token (strings.ToLower mapUnicodeLower osID) →
   (main W mapUnicodeLower MarshalIndent []).2 !! 1
   = Some (EvExec "rpm"
             ["-qa"; "--queryformat";
              "%{NAME}" +:+ TAB +:+ "%{VERSION}" +:+ TAB
              +:+ "%{CONFIGFILES}" +:+ NL]))
  ∧ (¬ contains_token (strings.ToLower mapUnicodeLower osID) →
     (main W mapUnicodeLower MarshalIndent []).2 !! 1
     = Some (EvExec "dpkg-query"
               ["-W"; "-f";
                "${Package}" +:+ TAB +:+ "${Version}" +:+ TAB
                +:+ "${Conffiles}" +:+ NL])).
Proof.
  intros Hread Hsplit Hpost osID.
  assert (Hid : osRelease_of_content content !! "ID" = Some osID).
  { apply (descriptor_lookup_last content pre post "ID" v Hsplit).
    - apply (bool_decide_unpack _). by vm_compute.
    - exact Hpost. }
  destruct (main_trace W mapUnicodeLower MarshalIndent content Hread)
    as (blocks & line & -> & _).
  cbn [lookup list_lookup app]. cbn [agent_of_descriptor pkgManager].
  rewrite Hid. cbn [default from_option]. unfold id.
  unfold NewPackageManager. split.
  - intros H%contains_token_iff. by rewrite H.
  - intros H. rewrite contains_token_iff in H.
    by apply not_true_is_false in H as ->.
Qed.

Lemma backend_follows_descriptor_ID_witness :
  (main Demo2.world_rhel id Demo.marshal []).2 !! 1
  = Some (EvExec "rpm"
            ["-qa"; "--queryformat";
             "%{NAME}" +:+ TAB +:+ "%{VERSION}" +:+ TAB
             +:+ "%{CONFIGFILES}" +:+ NL]).
Proof.
  refine (proj1 (backend_follows_descriptor_ID Demo2.world_rhel id Demo.marshal
            Demo2.os_release_rhel
            ["# release"; "ID=centos";
             "NAME=" +:+ QUOTE +:+ "Red Hat" +:+ QUOTE; ""]
            [""] (QUOTE +:+ "RHEL" +:+ QUOTE) _ _ _) _).
  - reflexivity.
  - reflexivity.
  - intros line k' v' Hl Heq Hk'.
    apply list_elem_of_In in Hl. simpl in Hl. destruct Hl as [<- | []].
    by destruct k'.
  - exists "rhel", "", "". split; [|reflexivity].
    apply list_elem_of_In. simpl. tauto.
Defined.

(** X6: the package query is executed exactly once in a run whose
    descriptor was read, as the second event, and never in a run whose
    descriptor could not be read; the collector executes nothing. *)
Theorem package_query_runs_once (W : World)
    (mapUnicodeLower : string → string)
    (MarshalIndent : SystemInfo → string * option error) :
  filter (λ ev, is_exec ev) (main W mapUnicodeLower MarshalIndent []).2
  = match ReadFile_at W 0 "/etc/os-release" with
    | (_, Some _) => []
    | (content, None) =>
        let pm := pkgManager (agent_of_descriptor mapUnicodeLower content) in
        [EvExec (query_command pm).1 (query_command pm).2]
    end.
Proof.
  destruct (ReadFile_at W 0 "/etc/os-release") as [content [e|]] eqn:Hread.
  - by rewrite main_eq, Hread.
  - destruct (main_trace W mapUnicodeLower MarshalIndent content Hread)
      as (blocks & line & -> & paths & Hblocks).
    cbv zeta. rewrite !filter_app.
    rewrite (filter_no_exec (mjoin blocks))
      by (by eapply attempt_blocks_no_exec).
    done.
Qed.

(** X7: whatever happens, the last event of a run is one line written to
    standard output (the JSON document or the message of the fatal
    failure), and nothing is ever written to standard error. *)
Theorem run_ends_with_stdout_line (W : World)
    (mapUnicodeLower : string → string)
    (MarshalIndent : SystemInfo → string * option error) :
  (∃ tr line,
     (main W mapUnicodeLower MarshalIndent []).2
     = tr ++ [EvWrite Stdout (line +:+ NL)])
  ∧ written Stderr (main W mapUnicodeLower MarshalIndent []).2 = "".
Proof.
  destruct (ReadFile_at W 0 "/etc/os-release") as [content [e|]] eqn:Hread.
  - rewrite main_eq, Hread. split; [|done].
    exists descriptor_read,
      ("Failed to initialize agent: " +:+ ("failed to read os-release: " +:+ e)).
    by rewrite append_assoc.
  - destruct (main_trace W mapUnicodeLower MarshalIndent content Hread)
      as (blocks & line & -> & paths & Hblocks).
    cbv zeta. split.
    + eexists (_ ++ mjoin blocks), line. by rewrite <- (assoc_L (++)).
    + rewrite !written_app.
      rewrite (attempt_blocks_stdout_only _ _ _ Hblocks). done.
Qed.

(** X8: the exit code is 0 or 1, and it is 0 exactly when the descriptor
    was read, the package query succeeded and the serializer succeeded;
    failed reads of configuration files never change it. *)
Theorem exit_code_success_iff (W : World)
    (mapUnicodeLower : string → string)
    (MarshalIndent : SystemInfo → string * option error) :
  let descriptor := ReadFile_at W 0 "/etc/os-release" in
  let a := agent_of_descriptor mapUnicodeLower descriptor.1 in
  let query := Output_at W 1 (query_command (pkgManager a)).1
                 (query_command (pkgManager a)).2 in
  let run := GatherSystemInfo W a descriptor_read in
  let code := (main W mapUnicodeLower MarshalIndent []).1 in
  (code = 0%Z ∨ code = 1%Z)
  ∧ (code = 0%Z ↔
     descriptor.2 = None ∧ query.2 = None
     ∧ (MarshalIndent (systemInfo run.1.1)).2 = None).
Proof.
  cbv zeta. rewrite main_eq.
  destruct (ReadFile_at W 0 "/etc/os-release") as [content [e|]];
    cbn [fst snd]; [intuition congruence|].
  rewrite GatherSystemInfo_eq. cbv zeta. simpl length.
  destruct (Output_at W 1 _ _) as [output [e|]]; cbn [fst snd];
    [intuition congruence|].
  destruct (MarshalIndent _) as [jsonData [e|]]; cbn [fst snd];
    intuition congruence.
Qed.

(** ** The collector, beyond the claims *)

Lemma collect_paths_sound W cr paths (configs : gmap string ConfigFile) tr :
  let sound (key : string) (config : ConfigFile) :=
    Path config = key
    ∧ ∃ t, ReadFile_at W t (full_path cr key) = (Content config, None)
           ∧ Stat_at W (S t) (full_path cr key) = (Modified config, None) in
  map_Forall sound configs →
  map_Forall sound (for_range paths (collect_path W cr) configs tr).1.
Proof.
  intros sound.
  apply (for_range_invariant (collect_path W cr)
           (λ (m : gmap string ConfigFile) _, map_Forall sound m)).
  intros path m tr0 _ Hm. rewrite collect_path_eq. cbv zeta.
  destruct (ReadFile_at W (length tr0) _) as [content [e|]] eqn:Hr; [done|].
  destruct (Stat_at W (S (length tr0)) _) as [modTime [e|]] eqn:Hs; [done|].
  simpl. apply map_Forall_insert_2; [|done].
  split; [done|]. by exists (length tr0).
Qed.

(** X9: after a successful [GatherSystemInfo] every entry of the
    configurations mapping is the product of one read of its own key: the
    snapshot's path is the key, its content is what a read of the joined
    path returned without error, and its modification time is what the stat
    right after that read returned. *)
Theorem collected_snapshots_sound (W : World) (a : Agent) (tr : list Event)
    (key : string) (config : ConfigFile) :
  let run := GatherSystemInfo W a tr in
  run.1.2 = None →
  Configurations (systemInfo run.1.1) !! key = Some config →
  Path config = key
  ∧ ∃ t, ReadFile_at W t (full_path (configReader a) key)
         = (Content config, None)
         ∧ Stat_at W (S t) (full_path (configReader a) key)
           = (Modified config, None).
Proof.
  intros run. subst run. rewrite GatherSystemInfo_eq. cbv zeta.
  destruct (Output_at W (length tr) _ _) as [output [e|]]; [done|].
  simpl. intros _ Hkey.
  pose proof (collect_paths_sound W (configReader a)
                (declared_paths (packages_of_output output)) ∅
                (tr ++ [EvExec (query_command (pkgManager a)).1
                          (query_command (pkgManager a)).2])) as Hsound.
  cbv zeta in Hsound.
  by apply (Hsound (map_Forall_empty _) key config).
Qed.

Lemma collected_snapshots_sound_witness :
  ∃ t, ReadFile_at Demo.world t (full_path (configReader Demo.agent) "/etc/a.conf")
       = ("X", None)
       ∧ Stat_at Demo.world (S t)
           (full_path (configReader Demo.agent) "/etc/a.conf")
         = ("2024-01-01 00:00:00 +0000 UTC", None).
Proof.
  refine (proj2 (collected_snapshots_sound Demo.world Demo.agent descriptor_read
            "/etc/a.conf"
            {| Path := "/etc/a.conf"; Content := "X";
               Modified := "2024-01-01 00:00:00 +0000 UTC" |} _ _));
    reflexivity.
Defined.



Lemma collect_paths_accounting W cr paths (configs : gmap string ConfigFile) tr :
  size (for_range paths (collect_path W cr) configs tr).1
  + length (filter (λ ev, is_write ev)
              (for_range paths (collect_path W cr) configs tr).2)
  ≤ size configs + length (filter (λ ev, is_write ev) tr) + length paths.
Proof.
  revert configs tr; induction paths as [|path paths IH]; intros configs tr;
    simpl; [lia|].
  unfold bind.
  pose proof (collect_path_eq W cr path configs tr) as E. cbv zeta in E.
  destruct (collect_path W cr path configs tr) as [configs1 tr1].
  specialize (IH configs1 tr1).
  assert (size configs1 + length (filter (λ ev, is_write ev) tr1)
          ≤ S (size configs + length (filter (λ ev, is_write ev) tr))); [|lia].
  destruct (ReadFile_at W (length tr) _) as [content [e|]].
  - injection E as -> ->. rewrite filter_app, length_app. simpl. lia.
  - destruct (Stat_at W (S (length tr)) _) as [modTime [e|]];
      injection E as -> ->; rewrite filter_app, length_app; simpl; [lia|].
    pose proof (map_size_insert path
                  {| Path := path; Content := content; Modified := modTime |}
                  configs) as Hsize.
    destruct (configs !! path); simpl in Hsize; lia.
Qed.

(** X11: a declared path accounts for at most one entry of the mapping
    or one warning, never both: after a successful package query the number
    of entries plus the number of lines written is at most the number of
    declared paths. *)
Theorem entries_and_warnings_bounded (W : World) (a : Agent) (tr : list Event)
    (output : string) :
  Output_at W (length tr) (query_command (pkgManager a)).1
    (query_command (pkgManager a)).2 = (output, None) →
  let run := GatherSystemInfo W a tr in
  size (Configurations (systemInfo run.1.1))
  + length (filter (λ ev, is_write ev) run.2)
  ≤ length (filter (λ ev, is_write ev) tr)
    + length (declared_paths (packages_of_output output)).
Proof.
  intros Hout run. subst run. rewrite GatherSystemInfo_eq. cbv zeta.
  rewrite Hout. simpl.
  pose proof (collect_paths_accounting W (configReader a)
                (declared_paths (packages_of_output output)) ∅
                (tr ++ [EvExec (query_command (pkgManager a)).1
                          (query_command (pkgManager a)).2])) as H.
  rewrite map_size_empty, filter_app in H. simpl in H.
  rewrite length_app in H. simpl in H. lia.
Qed.

Lemma entries_and_warnings_bounded_witness :
  size (Configurations
          (systemInfo (GatherSystemInfo Demo.world Demo.agent descriptor_read).1.1))
  + length (filter (λ ev, is_write ev)
              (GatherSystemInfo Demo.world Demo.agent descriptor_read).2)
  ≤ length (filter (λ ev, is_write ev) descriptor_read)
    + length (declared_paths (packages_of_output Demo.query_output)).
Proof.
  apply (entries_and_warnings_bounded Demo.world Demo.agent descriptor_read
           Demo.query_output).
  reflexivity.
Defined.

(** X12: when no package declares a configuration path, nothing is read
    after the package query: the events are the command alone, the
    configurations mapping is empty and the error is nil. *)
Theorem no_declared_paths_no_reads (W : World) (a : Agent) (tr : list Event)
    (output : string) :
  Output_at W (length tr) (query_command (pkgManager a)).1
    (query_command (pkgManager a)).2 = (output, None) →
  Forall (λ pkg, ConfigFiles pkg = []) (packages_of_output output) →
  GatherSystemInfo W a tr
  = ((set_systemInfo a
        {| OSRelease := osRelease (osDetector a);
           Packages := packages_of_output output;
           Configurations := ∅ |}, None),
     tr ++ [EvExec (query_command (pkgManager a)).1
              (query_command (pkgManager a)).2]).
Proof.
  intros Hout Hnone. rewrite GatherSystemInfo_eq. cbv zeta. rewrite Hout.
  assert (E : declared_paths (packages_of_output output) = []).
  { unfold declared_paths.
    induction Hnone as [|pkg pkgs Hpkg _ IH]; simpl; [done|].
    rewrite Hpkg. exact IH. }
  by rewrite E.
Qed.

Lemma no_declared_paths_no_reads_witness :
  (GatherSystemInfo Demo2.world_anonymous Demo.agent descriptor_read).2
  = descriptor_read
    ++ [EvExec (query_command (pkgManager Demo.agent)).1
          (query_command (pkgManager Demo.agent)).2].
Proof.
  rewrite (no_declared_paths_no_reads Demo2.world_anonymous Demo.agent
             descriptor_read "" eq_refl); [reflexivity|].
  vm_compute. constructor.
Defined.

(** X13: [GatherSystemInfo] never changes the detector, the package
    manager and the reader of the agent, and always copies the detector's
    mapping into the snapshot; when the package query fails the snapshot is
    left half-filled: the packages and the configurations keep the values
    they had, and the error carries the message of the command. *)
Theorem GatherSystemInfo_frame (W : World) (a : Agent) (tr : list Event) :
  let run := GatherSystemInfo W a tr in
  (osDetector run.1.1 = osDetector a
   ∧ pkgManager run.1.1 = pkgManager a
   ∧ configReader run.1.1 = configReader a
   ∧ OSRelease (systemInfo run.1.1) = osRelease (osDetector a))
  ∧ ∀ e, run.1.2 = Some e →
      Packages (systemInfo run.1.1) = Packages (systemInfo a)
      ∧ Configurations (systemInfo run.1.1) = Configurations (systemInfo a)
      ∧ (∃ printed cause,
           Output_at W (length tr) (query_command (pkgManager a)).1
             (query_command (pkgManager a)).2 = (printed, Some cause)
           ∧ e = "failed to query packages: " +:+ cause).
Proof.
  intros run. subst run. rewrite GatherSystemInfo_eq. cbv zeta.
  destruct (Output_at W (length tr) _ _) as [output [cause|]]; simpl.
  - split; [done|]. intros e [= <-]. split; [done|]. split; [done|].
    by exists output, cause.
  - split; [done|]. by intros e.
Qed.

Lemma GatherSystemInfo_frame_witness :
  Packages (systemInfo
              (GatherSystemInfo Demo.world_no_query Demo.agent descriptor_read).1.1)
  = [].
Proof.
  refine (proj1 (proj2 (GatherSystemInfo_frame Demo.world_no_query Demo.agent
                          descriptor_read) _ _)).
  reflexivity.
Defined.

(** ** Package enumeration, beyond the claims *)

Lemma records_of_output_elem output pkg :
  pkg ∈ records_of_output output →
  ∃ line, line ∈ strings.Split output NL ∧ line ≠ ""
          ∧ pkg ∈ record_of_line line.
Proof.
  unfold records_of_output.
  intros (recs & Hpkg & (line & -> & Hline)%list_elem_of_fmap)%list_elem_of_join.
  apply list_elem_of_filter in Hline as [Hne Hline]. by exists line.
Qed.

Lemma packages_of_output_app a b :
  packages_of_output (a +:+ NL +:+ b)
  = packages_of_output a ++ packages_of_output b.
Proof.
  rewrite !packages_of_output_records. unfold records_of_output.
  change (a +:+ NL +:+ b) with (a +:+ String "010"%char b).
  change NL with (String "010"%char "").
  by rewrite Split_byte_app, filter_app, fmap_app, join_app.
Qed.

(** X14: every record the enumerator returns has an empty list of
    required packages (the field is never filled); its name and version
    contain no tab and no newline, and none of its configuration paths
    contains a space, a tab or a newline. *)
Theorem enumerated_records_shape (W : World) (pm : PackageManager)
    (tr : list Event) (pkg : Package) :
  pkg ∈ (GetInstalledPackages W pm tr).1.1 →
  RequiredPackages pkg = []
  ∧ ¬ has_byte "009"%char (Name pkg) ∧ ¬ has_byte "010"%char (Name pkg)
  ∧ ¬ has_byte "009"%char (Version pkg) ∧ ¬ has_byte "010"%char (Version pkg)
  ∧ Forall (λ path, ¬ has_byte " "%char path ∧ ¬ has_byte "009"%char path
                    ∧ ¬ has_byte "010"%char path) (ConfigFiles pkg).
Proof.
  unfold GetInstalledPackages, bind, exec_Output, ret.
  destruct (Output_at W (length tr) _ _) as [output [e|]]; simpl;
    [by intros ?%elem_of_nil|].
  rewrite packages_of_output_records.
  intros (line & Hline & _ & Hpkg)%records_of_output_elem.
  assert (Hnl : ¬ has_byte "010"%char line).
  { by apply (proj1 (Forall_forall _ _) (Split_byte_fields "010"%char output)). }
  unfold record_of_line in Hpkg.
  pose proof (Split_byte_fields "009"%char line) as Htab.
  pose proof (Split_byte_sub "009"%char line "010"%char) as Hsub.
  change (String "009"%char "") with TAB in Htab, Hsub.
  destruct (strings.Split line TAB) as [|name [|version rest]];
    try by apply elem_of_nil in Hpkg.
  apply list_elem_of_singleton in Hpkg as ->. simpl.
  apply Forall_cons in Htab as [Hn Htab]. apply Forall_cons in Htab as [Hv Htab].
  apply Forall_cons in Hsub as [Hn' Hsub].
  apply Forall_cons in Hsub as [Hv' Hsub].
  repeat (split; [tauto || done|]).
  destruct rest as [|third rest]; [done|].
  apply Forall_cons in Htab as [Ht _]. apply Forall_cons in Hsub as [Ht' _].
  pose proof (Split_byte_fields " "%char third) as Hsp.
  pose proof (Split_byte_sub " "%char third "009"%char) as Hsub1.
  pose proof (Split_byte_sub " "%char third "010"%char) as Hsub2.
  change (String " "%char "") with " " in Hsp, Hsub1, Hsub2.
  apply Forall_forall. intros path Hpath.
  pose proof (proj1 (Forall_forall _ _) Hsp path Hpath).
  pose proof (proj1 (Forall_forall _ _) Hsub1 path Hpath).
  pose proof (proj1 (Forall_forall _ _) Hsub2 path Hpath).
  simpl in *. tauto.
Qed.

Lemma enumerated_records_shape_witness :
  Forall (λ path, ¬ has_byte " "%char path ∧ ¬ has_byte "009"%char path
                  ∧ ¬ has_byte "010"%char path) ["/etc/a.conf"].
Proof.
  refine (proj2 (proj2 (proj2 (proj2 (proj2
            (enumerated_records_shape Demo.world {| pkgType := "apt" |} []
               {| Name := "a"; Version := "1.0"; ConfigFiles := ["/etc/a.conf"];
                  RequiredPackages := [] |} _)))))).
  apply list_elem_of_In. vm_compute. tauto.
Defined.

(** X15: the parser works line by line: the records of two outputs joined
    by a newline are the records of the first followed by the records of
    the second; so a final newline, or any blank line, changes nothing, and
    the empty output gives no record. *)
Theorem enumeration_is_line_local (a b : string) :
  packages_of_output (a +:+ NL +:+ b)
  = packages_of_output a ++ packages_of_output b
  ∧ packages_of_output (a +:+ NL) = packages_of_output a
  ∧ packages_of_output (a +:+ NL +:+ NL +:+ b)
    = packages_of_output (a +:+ NL +:+ b)
  ∧ packages_of_output "" = [].
Proof.
  split; [apply packages_of_output_app|]. split; [|split; [|reflexivity]].
  - rewrite <- (append_nil_r (a +:+ NL)), append_assoc.
    rewrite packages_of_output_app. apply app_nil_r.
  - rewrite (packages_of_output_app a b).
    rewrite (packages_of_output_app a (NL +:+ b)).
    change (NL +:+ b) with ("" +:+ NL +:+ b).
    by rewrite (packages_of_output_app "" b).
Qed.

Lemma render_package_parses pkg :
  printable_package pkg → packages_of_output (render_package pkg) = [pkg].
Proof.
  intros (Hn1 & Hn2 & Hv1 & Hv2 & Hne & Hpaths & Hreq).
  set (paths := strings.Join (ConfigFiles pkg) " ").
  assert (Hp : ¬ has_byte "009"%char paths ∧ ¬ has_byte "010"%char paths).
  { split; intros [Hsep | (e & He & Hd)]%has_byte_Join;
      try (apply (proj1 (Forall_forall _ _) Hpaths) in He; tauto);
      revert Hsep; apply (bool_decide_unpack _); by vm_compute. }
  assert (Hline : ¬ has_byte "010"%char (render_package pkg)).
  { unfold render_package. fold paths. rewrite !has_byte_app.
    intros [? | [H | [? | [H | ?]]]]; try tauto;
      revert H; apply (bool_decide_unpack _); by vm_compute. }
  assert (Hsplit : strings.Split (render_package pkg) TAB
                   = [Name pkg; Version pkg; paths]).
  { unfold render_package. fold paths.
    change (Name pkg +:+ TAB +:+ Version pkg +:+ TAB +:+ paths)
      with (Name pkg +:+ String "009"%char
              (Version pkg +:+ String "009"%char paths)).
    change TAB with (String "009"%char "").
    rewrite !Split_byte_first by done.
    by rewrite Split_byte_absent by tauto. }
  assert (Hnonempty : render_package pkg ≠ "").
  { intros E. apply (f_equal strings.len) in E. unfold render_package in E.
    rewrite len_app in E. simpl in E. lia. }
  unfold packages_of_output.
  change NL with (String "010"%char "").
  rewrite Split_byte_absent by done. cbn [foldl]. unfold package_step.
  rewrite decide_False by done. cbv zeta. rewrite Hsplit. simpl.
  subst paths. change " " with (String " "%char "").
  rewrite Split_Join_byte.
  - destruct pkg. simpl in *. by subst.
  - done.
  - intros l Hl. apply (proj1 (Forall_forall _ _) Hpaths) in Hl. tauto.
Qed.

(** X16: the parser inverts the format the query asks for: when the
    command prints one line per package (name, version and the
    space-separated paths, tab-separated), the enumerator returns exactly
    those packages, in order, provided the fields are free of the
    separators and every package has at least one path. *)
Theorem enumeration_round_trip (W : World) (pm : PackageManager)
    (tr : list Event) (packages : list Package) :
  Output_at W (length tr) (query_command pm).1 (query_command pm).2
    = (render_packages packages, None) →
  Forall printable_package packages →
  (GetInstalledPackages W pm tr).1 = (packages, None).
Proof.
  intros Hout Hok.
  unfold GetInstalledPackages, bind, exec_Output, ret. rewrite Hout. simpl.
  f_equal. clear Hout.
  induction Hok as [|pkg packages Hpkg _ IH]; [done|].
  cbn [render_packages].
  rewrite packages_of_output_app, IH.
  by rewrite render_package_parses.
Qed.

Lemma enumeration_round_trip_witness :
  (GetInstalledPackages
     {| ReadFile_at _ _ := ("", None); Stat_at _ _ := ("", None);
        Output_at _ _ _ := (render_packages Demo2.two_packages, None) |}
     {| pkgType := "rpm" |} []).1 = (Demo2.two_packages, None).
Proof.
  apply enumeration_round_trip; [reflexivity|].
  apply (bool_decide_unpack _). by vm_compute.
Defined.

(** ** The path the reader opens *)

Lemma clean_elems_plain rooted (elems out : list string) :
  Forall plain_elem elems →
  filepath.clean_elems rooted elems out = rev out ++ elems.
Proof.
  intros Hplain. revert out.
  induction Hplain as [|e elems (He1 & He2 & He3 & _) _ IH]; intros out; simpl.
  - by rewrite app_nil_r.
  - rewrite decide_False by tauto. rewrite decide_False by done.
    rewrite IH. simpl. by rewrite <- (assoc_L (++)).
Qed.

Lemma clean_elems_rooted (elems out : list string) :
  Forall (λ e, ¬ has_byte "/"%char e) elems →
  Forall plain_elem out →
  Forall plain_elem (filepath.clean_elems true elems out).
Proof.
  intros Helems. revert out.
  induction Helems as [|e elems He _ IH]; intros out Hout; simpl.
  - by apply List.Forall_rev.
  - destruct (decide (e = "" ∨ e = ".")) as [|Hne]; [by apply IH|].
    destruct (decide (e = "..")) as [-> | Hdd].
    + destruct out as [|top out']; [by apply IH|].
      apply Forall_cons in Hout as [(_ & _ & Htop & _) Hout'].
      rewrite decide_False by done. by apply IH.
    + apply IH. constructor; [|done]. unfold plain_elem. tauto.
Qed.

Lemma clean_split_join rooted (elems out : list string) :
  Forall plain_elem elems →
  filepath.clean_elems rooted (strings.Split (strings.Join elems "/") "/") out
  = rev out ++ elems.
Proof.
  intros Hplain. destruct elems as [|e elems].
  - simpl. by rewrite app_nil_r.
  - change "/" with (String "/"%char "").
    rewrite Split_Join_byte.
    + by apply clean_elems_plain.
    + done.
    + intros l Hl. apply (proj1 (Forall_forall _ _) Hplain) in Hl.
      by destruct Hl as (_ & _ & _ & ?).
Qed.

(** X17: under the reader of the agent (root directory "/") the file
    opened for any declared path is an absolute, cleaned path: "/" followed
    by elements joined with "/", none of them empty, "." or "..".  A
    declared path with ".." elements cannot name anything above the root. *)
Theorem opened_path_is_clean (path : string) :
  ∃ elems,
    full_path (NewConfigurationReader "/") path
    = "/" +:+ strings.Join elems "/"
    ∧ Forall plain_elem elems.
Proof.
  exists (filepath.clean_elems true
            (strings.Split ("/" +:+ "/" +:+ path) "/") []).
  split; [reflexivity|].
  apply clean_elems_rooted; [|done].
  apply (Split_byte_fields "/"%char).
Qed.

(** X18: a declared path that is already a cleaned absolute path is
    opened as it is, and a cleaned relative path is opened as the same path
    below "/": so "/etc/x" and "etc/x" are two keys of the mapping for one
    file. *)
Theorem clean_path_opened_as_is (elems : list string) :
  Forall plain_elem elems →
  full_path (NewConfigurationReader "/") ("/" +:+ strings.Join elems "/")
  = "/" +:+ strings.Join elems "/"
  ∧ (elems ≠ [] →
     full_path (NewConfigurationReader "/") (strings.Join elems "/")
     = "/" +:+ strings.Join elems "/").
Proof.
  intros Hplain.
  assert (Hskip : ∀ s,
            strings.Split (String "/"%char s) "/" = "" :: strings.Split s "/").
  { intros s. apply (Split_byte_first "/"%char "" s), has_byte_nil. }
  split.
  - change (full_path (NewConfigurationReader "/")
              ("/" +:+ strings.Join elems "/"))
      with ("/" +:+ strings.Join
                      (filepath.clean_elems true
                         (strings.Split
                            (String "/"%char
                               (String "/"%char
                                  (String "/"%char (strings.Join elems "/"))))
                            "/") []) "/").
    rewrite !Hskip. simpl filepath.clean_elems.
    by rewrite (clean_split_join true elems []).
  - intros Hne.
    assert (E : strings.Join elems "/" ≠ "").
    { destruct elems as [|e [|e' elems]]; [done| |].
      - apply Forall_cons in Hplain as [(? & _) _]. done.
      - simpl. apply Forall_cons in Hplain as [(? & _) _]. by destruct e. }
    unfold full_path, NewConfigurationReader, filepath.Join. cbn [rootDir].
    rewrite decide_False by done.
    change (strings.Join ["/"; strings.Join elems "/"] "/")
      with (String "/"%char (String "/"%char (strings.Join elems "/"))).
    unfold filepath.Clean. rewrite decide_False by done.
    cbn [strings.HasPrefix]. rewrite decide_True by done.
    rewrite !Hskip. simpl filepath.clean_elems.
    by rewrite (clean_split_join true elems []).
Qed.

Lemma clean_path_opened_as_is_witness :
  full_path (NewConfigurationReader "/") "/etc/foo.d/foo.conf"
  = "/etc/foo.d/foo.conf".
Proof.
  refine (proj1 (clean_path_opened_as_is ["etc"; "foo.d"; "foo.conf"] _)).
  apply (bool_decide_unpack _). by vm_compute.
Defined.

(** ** Reading back a written descriptor *)

Lemma render_descriptor_parses (assignments : list (string * string))
    (m : gmap string string) :
  Forall printable_assignment assignments →
  foldl descriptor_step m (strings.Split (render_descriptor assignments) NL)
  = foldl (λ (m : gmap string string) kv, <[kv.1 := kv.2]> m) m assignments.
Proof.
  intros Hok. revert m.
  induction Hok as [|[key value] assignments (Hk1 & Hk2 & Hk3 & Hv1 & Hv2) _ IH];
    intros m; [done|].
  simpl in Hk1, Hk2, Hk3, Hv1, Hv2. cbn [render_descriptor foldl fst snd].
  set (line := key +:+ "=" +:+ (QUOTE +:+ value +:+ QUOTE)).
  assert (Hline : ¬ has_byte "010"%char line).
  { unfold line. rewrite !has_byte_app.
    intros [? | [H | [H | [? | H]]]]; try tauto;
      revert H; apply (bool_decide_unpack _); by vm_compute. }
  replace (key +:+ "=" +:+ (QUOTE +:+ value +:+ QUOTE) +:+ NL
           +:+ render_descriptor assignments)
    with (line +:+ String "010"%char (render_descriptor assignments))
    by (unfold line; by rewrite !append_assoc).
  change NL with (String "010"%char "").
  rewrite Split_byte_first by done. cbn [foldl].
  change (String "010"%char "") with NL. rewrite IH. f_equal.
  unfold line. rewrite descriptor_step_pair by done.
  change QUOTE with (String "034"%char "").
  by rewrite Trim_clean, Trim_quoted.
Qed.

(** X19: reading back a descriptor written as one line [key="value"] per
    assignment gives the mapping obtained by inserting the assignments in
    order (a later assignment of a key replaces an earlier one), provided
    keys and values are free of newlines and double quotes and keys of
    "=". *)
Theorem descriptor_round_trip (W : World) (tr : list Event)
    (assignments : list (string * string)) :
  ReadFile_at W (length tr) "/etc/os-release"
    = (render_descriptor assignments, None) →
  Forall printable_assignment assignments →
  (NewOSDetector W tr).1
  = Ok {| osRelease :=
            foldl (λ (m : gmap string string) kv, <[kv.1 := kv.2]> m)
              ∅ assignments |}.
Proof.
  intros Hread Hok. rewrite NewOSDetector_eq, Hread. simpl. f_equal. f_equal.
  by apply render_descriptor_parses.
Qed.

Lemma descriptor_round_trip_witness :
  (NewOSDetector
     {| ReadFile_at _ _ :=
          (render_descriptor
             [("ID", "debian"); ("VERSION_ID", "12"); ("ID", "ubuntu")], None);
        Stat_at _ _ := ("", None);
        Output_at _ _ _ := ("", None) |} []).1
  = Ok {| osRelease := <["ID" := "ubuntu"]>
                         (<["VERSION_ID" := "12"]> (<["ID" := "debian"]> ∅)) |}.
Proof.
  apply (descriptor_round_trip _ []
           [("ID", "debian"); ("VERSION_ID", "12"); ("ID", "ubuntu")]).
  - reflexivity.
  - apply (bool_decide_unpack _). by vm_compute.
Defined.
